(** * Explanation alignment of the sentiment dashboard (app.py)

    A shallow embedding of the text-alignment code of [app.py]:
    [preprocess_with_tracking] (the repeated-character step and the
    transform log), [compute_shap_values] (the feature selector) and
    [generate_spacy_visualization] (offset reconstruction, span
    resolution and underscore insertion).

    Conventions.
    - A Python [str] is a [string]; offsets are Python [int]s, hence [Z]
      (the source really produces [-1] and uses it as an offset).
    - SHAP values are finite single-precision floats; they are only
      compared and negated, never added or multiplied, so they are
      modelled by rationals [Q].  The literal [0.01] is compared with them
      in their precision: it stands for the float [5368709 / 2^29].
    - A DataFrame with one [SHAP] column is the list of its rows
      [(feature name, value)] in index order.
    - NLTK's [word_tokenize], the Porter stemmer, the stop word list and
      the slang table are external: the token list of a text, the stemmer
      and the loaded table are arguments of the functions below. *)

From Stdlib Require Import ZArith QArith Qabs Ascii String List Lia.
From stdpp Require Import gmap strings list sorting.

Local Open Scope string_scope.
Local Open Scope list_scope.
Local Open Scope Z_scope.

(** ** Python string primitives *)

Module Py.

Definition len (s : string) : Z := Z.of_nat (String.length s).

Fixpoint take (n : nat) (s : string) : string :=
  match n, s with
  | S k, String c t => String c (take k t)
  | _, _ => EmptyString
  end.

Fixpoint drop (n : nat) (s : string) : string :=
  match n, s with
  | S k, String _ t => drop k t
  | _, _ => s
  end.

(** A slice bound or a search start [k]: a negative [k] counts from the
    end of the string and is clamped at [0]. *)
Definition bound (s : string) (k : Z) : nat :=
  Z.to_nat (if k <? 0 then Z.max 0 (len s + k) else k).

(** [s[:k]] and [s[k:]]. *)
Definition slice_to (s : string) (k : Z) : string := take (bound s k) s.
Definition slice_from (s : string) (k : Z) : string := drop (bound s k) s.

(** [s.count(c)] for a one-character needle. *)
Fixpoint count (c : ascii) (s : string) : nat :=
  match s with
  | EmptyString => O
  | String d t => (if Ascii.eqb d c then 1 else 0) + count c t
  end.

(** First index [>= skip] at which [w] occurs in [s]; [pos] is the index
    of the head of [s] in the whole text. *)
Fixpoint find_aux (w s : string) (skip pos : nat) {struct s} : option nat :=
  match skip with
  | O =>
      if String.prefix w s then Some pos
      else match s with
           | EmptyString => None
           | String _ t => find_aux w t O (S pos)
           end
  | S k =>
      match s with
      | EmptyString => None
      | String _ t => find_aux w t k (S pos)
      end
  end.

(** [s.find(w, start)]: the lowest index at or after [start] where [w]
    occurs, and [-1] when there is none. *)
Definition find (s w : string) (start : Z) : Z :=
  match find_aux w s (bound s start) O with
  | Some p => Z.of_nat p
  | None => -1
  end.

End Py.

(** ** Data model of [generate_spacy_visualization] *)

(** The threshold [0.01] of the source, as the comparisons with the
    single-precision scores take it: the nearest float, [5368709 / 2^29],
    a little below one hundredth. *)
Definition threshold : Q := 5368709 # 536870912.

(** One-column DataFrame [shap_values_df]: rows in index order. *)
Definition frame : Type := list (string * Q).

(** [w in df.index] and [df['SHAP'][w]] in one lookup. *)
Fixpoint shap_at (df : frame) (w : string) : option Q :=
  match df with
  | [] => None
  | (name, v) :: rest => if String.eqb name w then Some v else shap_at rest w
  end.

(** [x < y] on scores, as a test. *)
Definition Qlt_bool (x y : Q) : bool := negb (Qle_bool y x).

Inductive polarity := POS | NEG.

(** The label ["POS (v)"] / ["NEG (v)"]; the two-decimal rendering of [v]
    is not modelled, the label carries the value it was printed from. *)
Record label := Label { lab_sign : polarity; lab_value : Q }.

Definition make_label (shap_value : Q) : label :=
  Label (if Qlt_bool 0 shap_value then POS else NEG) shap_value.

(** An entry of [entities]: [{"start": .., "end": .., "label": ..}]. *)
Record entity := Entity { ent_start : Z; ent_end : Z; ent_label : label }.

(** An entry of [word_positions]. *)
Definition position : Type := string * Z * Z.

(** [reverse_mapping = {original: processed for original, processed in
    word_mapping}]: later pairs overwrite earlier ones. *)
Definition reverse_mapping (word_mapping : list (string * string))
  : gmap string string :=
  foldl (fun m p => <[ p.1 := p.2 ]> m) ∅ word_mapping.

(** The loop that fills [word_positions], started with
    [current_position = cur]. *)
Fixpoint word_positions_from (input_text : string) (cur : Z)
    (original_words : list string) : list position :=
  match original_words with
  | [] => []
  | word :: rest =>
      let start_idx := Py.find input_text word cur in
      let end_idx := start_idx + Py.len word in
      (word, start_idx, end_idx) :: word_positions_from input_text end_idx rest
  end.

Definition word_positions (input_text : string) (original_words : list string)
  : list position :=
  word_positions_from input_text 0 original_words.

(** Body of the loop that fills [entities]. *)
Definition entity_of (rm : gmap string string) (shap_values_df : frame)
    (wp : position) : option entity :=
  let '(word, start, end_) := wp in
  match rm !! word with
  | None => None
  | Some processed_word =>
      match shap_at shap_values_df processed_word with
      | None => None
      | Some shap_value =>
          if Qle_bool threshold (Qabs shap_value)
          then Some (Entity start end_ (make_label shap_value))
          else None
      end
  end.

Definition entities (rm : gmap string string) (shap_values_df : frame)
    (wps : list position) : list entity :=
  omap (entity_of rm shap_values_df) wps.

(** The loop over [range(len(entities) - 1)]: state [(modified_text, offset)]. *)
Fixpoint add_underscores (ents : list entity) (modified_text : string)
    (offset : Z) : string * Z :=
  match ents with
  | [] => (modified_text, offset)
  | e :: rest =>
      match rest with
      | [] => (modified_text, offset)
      | e' :: _ =>
          let current_end := ent_end e + offset in
          let next_start := ent_start e' + offset in
          if current_end + 1 =? next_start
          then add_underscores rest
                 (Py.slice_to modified_text current_end ++ "_"
                    ++ Py.slice_from modified_text current_end)%string
                 (offset + 1)
          else add_underscores rest modified_text offset
      end
  end.

Definition underscores_before (modified_text : string) (k : Z) : Z :=
  Z.of_nat (Py.count "_"%char (Py.slice_to modified_text k)).

Definition adjust (modified_text : string) (e : entity) : entity :=
  Entity (ent_start e + underscores_before modified_text (ent_start e))
         (ent_end e + underscores_before modified_text (ent_end e))
         (ent_label e).

(** The colour table keys: one label per row of [top_n_shap_values_df]
    whose value in [shap_values_df] is beyond the threshold (strictly). *)
Definition color_labels (shap_values_df top_n_shap_values_df : frame)
  : list label :=
  let vals := omap (fun r => shap_at shap_values_df r.1) top_n_shap_values_df in
  map (Label POS) (List.filter (fun v => Qlt_bool threshold v) vals)
  ++ map (Label NEG) (List.filter (fun v => Qlt_bool v (- threshold)) vals).

(** [spacy_data] as handed to the renderer, with the colour keys. *)
Record spacy_data := SpacyData {
  sd_text : string;
  sd_ents : list entity;
  sd_colors : list label
}.

Definition generate_spacy_visualization (input_text : string)
    (original_words : list string) (shap_values_df top_n_shap_values_df : frame)
    (word_mapping : list (string * string)) : spacy_data :=
  let rm := reverse_mapping word_mapping in
  let wps := word_positions input_text original_words in
  let ents := entities rm shap_values_df wps in
  let modified_text := (add_underscores ents input_text 0).1 in
  SpacyData modified_text (map (adjust modified_text) ents)
            (color_labels shap_values_df top_n_shap_values_df).

(** ** [compute_shap_values]: the feature selector *)

(** [{processed for _, processed in word_mapping}] *)
Definition processed_words (word_mapping : list (string * string))
  : gset string :=
  list_to_set (map snd word_mapping).

(** [df.loc[df.index.isin(names)]] *)
Definition loc_isin (names : gset string) (df : frame) : frame :=
  List.filter (fun r => bool_decide (r.1 ∈ names)) df.

(** [df.loc[df['SHAP'].abs() >= 0.01]] *)
Definition loc_significant (df : frame) : frame :=
  List.filter (fun r => Qle_bool threshold (Qabs r.2)) df.

(** Orders used by the two pandas sorts. *)
Definition abs_desc (r1 r2 : string * Q) : Prop := (Qabs r2.2 <= Qabs r1.2)%Q.
Definition shap_asc (r1 r2 : string * Q) : Prop := (r1.2 <= r2.2)%Q.

#[global] Instance Qle_decision (x y : Q) : Decision (x <= y)%Q.
Proof.
  destruct (Qle_bool x y) eqn:E; [left | right].
  - apply Qle_bool_iff; exact E.
  - intros H; apply Qle_bool_iff in H; congruence.
Defined.

#[global] Instance abs_desc_decision r1 r2 : Decision (abs_desc r1 r2) :=
  Qle_decision _ _.
#[global] Instance shap_asc_decision r1 r2 : Decision (shap_asc r1 r2) :=
  Qle_decision _ _.

(** [df['SHAP'].abs().nlargest(n).index]: the labels of the [n] rows of
    largest magnitude, largest first; [n <= 0] selects nothing.  The order
    among rows of equal magnitude is the library's. *)
Definition nlargest_abs_index (n : Z) (df : frame) : list string :=
  map fst (firstn (Z.to_nat n) (merge_sort abs_desc df)).

(** [df.loc[labels]]: for each label in turn, the rows carrying it. *)
Definition loc_labels (df : frame) (labels : list string) : frame :=
  flat_map (fun l => List.filter (fun r => String.eqb r.1 l) df) labels.

(** [df.sort_values(by="SHAP")], ascending signed values. *)
Definition sort_values (df : frame) : frame := merge_sort shap_asc df.

(** The three values returned by [compute_shap_values]; [shap_values_df]
    is the explainer's output set on the vectoriser's feature names. *)
Definition compute_shap_values (shap_values_df : frame)
    (word_mapping : list (string * string)) (top_n : Z)
  : frame * frame * Z :=
  let filtered := loc_isin (processed_words word_mapping) shap_values_df in
  let filtered := loc_significant filtered in
  let top_n_shap_values_df :=
    loc_labels filtered (nlargest_abs_index top_n filtered) in
  let top_n := Z.of_nat (List.length top_n_shap_values_df) in
  (shap_values_df, sort_values top_n_shap_values_df, top_n).

(** ** [preprocess_with_tracking] *)

(** *** The fourth substitution, [re.sub(r'(\w)\1{5,}', '', text)] *)

(** [\w] on a code point below 256: ASCII letters, digits and [_], and the
    alphanumeric characters of Latin-1. *)
Definition is_word (c : ascii) : bool :=
  let n := N_of_ascii c in
  ((48 <=? n) && (n <=? 57) || (65 <=? n) && (n <=? 90) || (n =? 95)
   || (97 <=? n) && (n <=? 122)
   || (n =? 170) || (n =? 178) || (n =? 179) || (n =? 181) || (n =? 185)
   || (n =? 186) || (188 <=? n) && (n <=? 190)
   || (192 <=? n) && (n <=? 214) || (216 <=? n) && (n <=? 246)
   || (248 <=? n))%N.

(** [s] begins with [n] copies of [c]. *)
Fixpoint starts_with_run (n : nat) (c : ascii) (s : string) : bool :=
  match n with
  | O => true
  | S k =>
      match s with
      | EmptyString => false
      | String d t => Ascii.eqb d c && starts_with_run k c t
      end
  end.

(** One left-to-right pass.  [skip = Some d] while the scan is inside a
    match of the pattern on the character [d]: the greedy [{5,}] takes
    every further [d]. *)
Fixpoint strip_repeats_from (skip : option ascii) (s : string) : string :=
  match s with
  | EmptyString => EmptyString
  | String c t =>
      if match skip with Some d => Ascii.eqb c d | None => false end
      then strip_repeats_from skip t
      else if is_word c && starts_with_run 5 c t
           then strip_repeats_from (Some c) t
           else String c (strip_repeats_from None t)
  end.

Definition strip_repeats (text : string) : string :=
  strip_repeats_from None text.

(** *** Slang substitution, lower-casing, stop words, stemming *)

(** [str.lower] on ASCII letters; the cleaned text holds nothing else. *)
Definition lower_char (c : ascii) : ascii :=
  let n := N_of_ascii c in
  if ((65 <=? n) && (n <=? 90))%N then ascii_of_N (n + 32) else c.

Fixpoint lower (s : string) : string :=
  match s with
  | EmptyString => EmptyString
  | String c t => String (lower_char c) (lower t)
  end.

(** What [slang_dict.get(word, word)] answers: the word itself, or the
    column of the slang table that the word names. *)
Inductive slang_value :=
| Word (w : string)
| Column (cells : gmap string string).

Section Tracking.

(** [slang_dict], as [pd.read_csv(.., index_col='keyword').to_dict()]
    builds it: one entry per column of the table, holding the column as a
    dict from keyword to cell.  Then the English stop words and the
    stemmer. *)
Variable slang_dict : gmap string (gmap string string).
Variable stopwords : list string.
Variable stem : string -> string.

(** [slang_dict.get(word, word)] *)
Definition slang_get (word : string) : slang_value :=
  match slang_dict !! word with
  | Some column => Column column
  | None => Word word
  end.

(** [word != new_word]: a word differs from any dict. *)
Definition differs (word : string) (new_word : slang_value) : bool :=
  match new_word with
  | Word w => negb (String.eqb word w)
  | Column _ => true
  end.

(** First loop: [(modified_tokens, word_mapping)]. *)
Fixpoint translate_slang (tokens : list string)
  : list slang_value * list (string * slang_value) :=
  match tokens with
  | [] => ([], [])
  | word :: rest =>
      let new_word := slang_get word in
      let '(modified_tokens, word_mapping) := translate_slang rest in
      (new_word :: modified_tokens,
       if differs word new_word then (word, new_word) :: word_mapping
       else word_mapping)
  end.

(** [word.lower()]: a dict has no such method, [None] is the
    [AttributeError]. *)
Definition lower_of (word : slang_value) : option string :=
  match word with
  | Word w => Some (lower w)
  | Column _ => None
  end.

(** [[word.lower() for word in modified_tokens
      if word.lower() not in stopwords.words('english')]] *)
Definition lower_and_filter (modified_tokens : list slang_value)
  : option (list string) :=
  lowered ← mapM lower_of modified_tokens;
  Some (List.filter (fun w => negb (bool_decide (w ∈ stopwords))) lowered).

(** Second loop: [(stemmed_tokens, pairs appended to word_mapping)]. *)
Fixpoint stem_all (tokens_lower : list string)
  : list string * list (string * string) :=
  match tokens_lower with
  | [] => ([], [])
  | word :: rest =>
      let stemmed_word := stem word in
      let '(stemmed_tokens, word_mapping) := stem_all rest in
      (stemmed_word :: stemmed_tokens,
       if String.eqb word stemmed_word then word_mapping
       else (word, stemmed_word) :: word_mapping)
  end.

(** [' '.join(words)] *)
Fixpoint join_space (words : list string) : string :=
  match words with
  | [] => ""
  | [w] => w
  | w :: rest => (w ++ " " ++ join_space rest)%string
  end.

(** The records of the first loop as pairs of words: past the
    lower-casing none of them holds a column. *)
Definition word_pairs (word_mapping : list (string * slang_value))
  : list (string * string) :=
  omap (fun p : string * slang_value =>
          match p.2 with
          | Word w => Some (p.1, w)
          | Column _ => None
          end) word_mapping.

(** Lines 28-51 on the tokens of the cleaned text; [None] when the
    lower-casing raises.  [list(set(..))] drops repeated pairs; the order
    it leaves is the hash order of the run, the first-occurrence order
    stands for it here. *)
Definition track (tokens : list string)
  : option (string * list (string * string)) :=
  let '(modified_tokens, slang_pairs) := translate_slang tokens in
  tokens_lower ← lower_and_filter modified_tokens;
  let '(stemmed_tokens, stem_pairs) := stem_all tokens_lower in
  Some (join_space stemmed_tokens,
        remove_dups (word_pairs slang_pairs ++ stem_pairs)).

End Tracking.

(** ** Sample inputs *)

(** The double quote character, as a one-character text. *)
Definition dq : string := String (ascii_of_nat 34) "".

(** A slang table with the one column [meaning]. *)
Definition sample_slang : gmap string (gmap string string) :=
  {[ "meaning" := {[ "lit" := "great"; "lol" := "laughing" ]} ]}.

(** A stand-in for the Porter stemmer on the words of the samples. *)
Definition sample_stem (w : string) : string :=
  if String.eqb w "amazing" then "amaz"
  else if String.eqb w "laughing" then "laugh"
  else if String.eqb w "terrible" then "terribl"
  else w.

(** ** Vocabulary of the statements *)

(** [e] ends before [e'] starts. *)
Definition clear_of (e e' : entity) : Prop := ent_end e <= ent_start e'.

(** A located token lies left of a later one. *)
Definition pos_before (p q : position) : Prop :=
  0 <= p.1.2 /\ p.1.2 <= p.2 /\ p.2 <= q.1.2.

Definition ent_before (e e' : entity) : Prop :=
  0 <= ent_start e /\ ent_start e <= ent_end e /\ ent_end e <= ent_start e'.

(** Raw offsets at which the loop puts an underscore: the end of every
    span that is followed, one character later, by the next span. *)
Fixpoint insertion_points (ents : list entity) : list Z :=
  match ents with
  | [] => []
  | e :: rest =>
      match rest with
      | [] => []
      | e' :: _ =>
          if ent_end e + 1 =? ent_start e'
          then ent_end e :: insertion_points rest
          else insertion_points rest
      end
  end.

(** [s], a text whose first character has raw offset [base], with one
    underscore put in front of each of the raw offsets [ps]. *)
Fixpoint splice (s : string) (base : Z) (ps : list Z) : string :=
  match ps with
  | [] => s
  | p :: ps' =>
      (Py.slice_to s (p - base) ++ "_"
         ++ splice (Py.slice_from s (p - base)) p ps')%string
  end.

(** Span ends lie in [lo .. hi] and do not decrease. *)
Fixpoint ends_within (lo hi : Z) (ents : list entity) : Prop :=
  match ents with
  | [] => True
  | e :: rest => lo <= ent_end e <= hi /\ ends_within (ent_end e) hi rest
  end.

(** The rows both filters keep. *)
Definition qualifying (df : frame) (word_mapping : list (string * string))
  : frame :=
  loc_significant (loc_isin (processed_words word_mapping) df).

(** [n] copies of [c]. *)
Fixpoint run (c : ascii) (n : nat) : string :=
  match n with
  | O => EmptyString
  | S k => String c (run c k)
  end.

Definition starts_with (c : ascii) (s : string) : bool :=
  match s with
  | EmptyString => false
  | String d _ => Ascii.eqb d c
  end.

Fixpoint ends_with (c : ascii) (s : string) : bool :=
  match s with
  | EmptyString => false
  | String d EmptyString => Ascii.eqb d c
  | String _ t => ends_with c t
  end.

(** The characters of [s] outside [\w], in order. *)
Fixpoint non_word (s : string) : string :=
  match s with
  | EmptyString => EmptyString
  | String c t => if is_word c then non_word t else String c (non_word t)
  end.

(** ** Further vocabulary: slices and tokens in textual order *)

(** [s[a:b]] *)
Definition slice (s : string) (a b : Z) : string :=
  Py.take (Py.bound s b - Py.bound s a) (Py.drop (Py.bound s a) s).

(** The words stand in the text one after the other, in this order, with
    any text between them: what a tokenizer that cuts the text yields. *)
Fixpoint in_order (s : string) (words : list string) : Prop :=
  match words with
  | [] => True
  | w :: rest =>
      exists gap tail : string, s = (gap ++ w ++ tail)%string /\ in_order tail rest
  end.

(** The text without its underscores. *)
Fixpoint without_underscores (s : string) : string :=
  match s with
  | EmptyString => EmptyString
  | String c t =>
      if Ascii.eqb c "_" then without_underscores t
      else String c (without_underscores t)
  end.

(** The lower-cased tokens that are no stop words. *)
Definition kept_tokens (stopwords tokens : list string) : list string :=
  List.filter (fun w => negb (bool_decide (w ∈ stopwords))) (map lower tokens).

(** ** The other substitutions of [preprocess_with_tracking] *)

(** [\s] on a code point below 256 (the same characters [str.strip]
    removes). *)
Definition is_space (c : ascii) : bool :=
  let n := N_of_ascii c in
  ((9 <=? n) && (n <=? 13) || (28 <=? n) && (n <=? 32) || (n =? 133)
   || (n =? 160))%N.

(** [[A-Za-z]] *)
Definition is_letter (c : ascii) : bool :=
  let n := N_of_ascii c in
  ((65 <=? n) && (n <=? 90) || (97 <=? n) && (n <=? 122))%N.

(** The first character is there and is not white space: one [\S]. *)
Definition starts_nonspace (s : string) : bool :=
  match s with
  | EmptyString => false
  | String c _ => negb (is_space c)
  end.

(** Progress of [\S+\.\S+/\S*] through a run of non-space characters. *)
Inductive url_state := UrlStart | UrlHead | UrlDot | UrlTail.

(** [\S+\.\S+/\S*] matches at the head of [s]: after at least one
    character the run has a dot, and at least one character later a
    slash. *)
Fixpoint dot_slash_from (st : url_state) (s : string) : bool :=
  match s with
  | EmptyString => false
  | String c t =>
      if is_space c then false
      else match st with
           | UrlStart => dot_slash_from UrlHead t
           | UrlHead =>
               dot_slash_from (if Ascii.eqb c "." then UrlDot else UrlHead) t
           | UrlDot => dot_slash_from UrlTail t
           | UrlTail => if Ascii.eqb c "/" then true else dot_slash_from UrlTail t
           end
  end.

(** One of the three alternatives matches at the head of [s]; each of them
    then runs to the end of the non-space run. *)
Definition url_at (s : string) : bool :=
  String.prefix "http" s && starts_nonspace (Py.drop 4 s)
  || String.prefix "www" s && starts_nonspace (Py.drop 3 s)
  || dot_slash_from UrlStart s.

(** [re.sub(r'http\S+|www\S+|\S+\.\S+/\S*', '', text)]; [skipping] while
    inside a match. *)
Fixpoint strip_urls_from (skipping : bool) (s : string) : string :=
  match s with
  | EmptyString => EmptyString
  | String c t =>
      if is_space c then String c (strip_urls_from false t)
      else if skipping then strip_urls_from true t
      else if url_at s then strip_urls_from true t
      else String c (strip_urls_from false t)
  end.

Definition strip_urls (text : string) : string := strip_urls_from false text.

(** A [>] comes before the end of the line: [.*?>] can match. *)
Fixpoint closes_on_line (s : string) : bool :=
  match s with
  | EmptyString => false
  | String c t =>
      if Ascii.eqb c ">" then true
      else if Ascii.eqb c "010" then false
      else closes_on_line t
  end.

(** [re.sub(r'<.*?>', '', text)]; [in_tag] while inside a match. *)
Fixpoint strip_tags_from (in_tag : bool) (s : string) : string :=
  match s with
  | EmptyString => EmptyString
  | String c t =>
      if in_tag then strip_tags_from (negb (Ascii.eqb c ">")) t
      else if Ascii.eqb c "<" && closes_on_line t then strip_tags_from true t
      else String c (strip_tags_from false t)
  end.

Definition strip_tags (text : string) : string := strip_tags_from false text.

(** Where the scan of [@\w+|#\w+|@ \w+] stands: outside a match, on the
    blank of [@ \w+], or in the run of word characters. *)
Inductive mention_state := Outside | OnBlank | InWord.

Definition starts_word (s : string) : bool :=
  match s with
  | EmptyString => false
  | String c _ => is_word c
  end.

Definition starts_blank_word (s : string) : bool :=
  match s with
  | String " " t => starts_word t
  | _ => false
  end.

(** [re.sub(r'@\w+|#\w+|@ \w+', '', text)] *)
Fixpoint strip_mentions_from (m : mention_state) (s : string) : string :=
  match s with
  | EmptyString => EmptyString
  | String c t =>
      match m with
      | OnBlank => strip_mentions_from InWord t
      | _ =>
          if match m with InWord => is_word c | _ => false end
          then strip_mentions_from InWord t
          else if (Ascii.eqb c "@" || Ascii.eqb c "#") && starts_word t
               then strip_mentions_from InWord t
               else if Ascii.eqb c "@" && starts_blank_word t
                    then strip_mentions_from OnBlank t
                    else String c (strip_mentions_from Outside t)
      end
  end.

Definition strip_mentions (text : string) : string :=
  strip_mentions_from Outside text.

(** [re.sub(r'[^A-Za-z\s]', ' ', text)] *)
Fixpoint letters_only (s : string) : string :=
  match s with
  | EmptyString => EmptyString
  | String c t =>
      String (if is_letter c || is_space c then c else " "%char) (letters_only t)
  end.

(** [re.sub(r'\s+', ' ', text)]; [in_run] after a white space character. *)
Fixpoint collapse_from (in_run : bool) (s : string) : string :=
  match s with
  | EmptyString => EmptyString
  | String c t =>
      if is_space c
      then if in_run then collapse_from true t
           else String " " (collapse_from true t)
      else String c (collapse_from false t)
  end.

Definition collapse (text : string) : string := collapse_from false text.

(** [str.lstrip], [str.rstrip] and [str.strip] without argument. *)
Fixpoint lstrip (s : string) : string :=
  match s with
  | EmptyString => EmptyString
  | String c t => if is_space c then lstrip t else s
  end.

Fixpoint rstrip (s : string) : string :=
  match s with
  | EmptyString => EmptyString
  | String c t =>
      match rstrip t with
      | EmptyString => if is_space c then EmptyString else String c EmptyString
      | t' => String c t'
      end
  end.

Definition strip (s : string) : string := rstrip (lstrip s).

(** Lines 21-26: the six substitutions in their order. *)
Definition clean_text (text : string) : string :=
  let text := strip_urls text in
  let text := strip_tags text in
  let text := strip_mentions text in
  let text := strip_repeats text in
  let text := letters_only text in
  strip (collapse text).

(** Some white-space-free run of six equal word characters stands in [s]. *)
Fixpoint has_long_run (s : string) : bool :=
  match s with
  | EmptyString => false
  | String c t => is_word c && starts_with_run 5 c t || has_long_run t
  end.

(** No complete tag [<...>] on one line stands in [s]. *)
Fixpoint no_tag (s : string) : bool :=
  match s with
  | EmptyString => true
  | String c t => negb (Ascii.eqb c "<" && closes_on_line t) && no_tag t
  end.

(** The white space characters of [s], in order. *)
Fixpoint spaces_of (s : string) : string :=
  match s with
  | EmptyString => EmptyString
  | String c t => if is_space c then String c (spaces_of t) else spaces_of t
  end.

(** Letters and single blanks only, no blank at either end: [after_blank]
    tells that the previous character was a blank or the start. *)
Fixpoint tidy_from (after_blank : bool) (s : string) : bool :=
  match s with
  | EmptyString => negb after_blank
  | String c t =>
      if Ascii.eqb c " " then negb after_blank && tidy_from true t
      else is_letter c && tidy_from false t
  end.

Definition tidy (s : string) : bool :=
  match s with
  | EmptyString => true
  | _ => tidy_from true s
  end.

(** The characters of a text. *)
Definition chars (s : string) : list ascii := list_ascii_of_string s.

Section Preprocess.

(** NLTK's [word_tokenize] and the loaded resources. *)
Variable word_tokenize : string -> list string.
Variable slang_dict : gmap string (gmap string string).
Variable stopwords : list string.
Variable stem : string -> string.

(** [None] when the lower-casing raises [AttributeError]. *)
Definition preprocess_with_tracking (text : string)
  : option (string * list (string * string)) :=
  track slang_dict stopwords stem (word_tokenize (clean_text text)).

End Preprocess.

(** Letters and blanks only, never two blanks in a row; [after_blank]
    forbids a blank at the head. *)
Fixpoint single_blanks (after_blank : bool) (s : string) : bool :=
  match s with
  | EmptyString => true
  | String c t =>
      if Ascii.eqb c " " then negb after_blank && single_blanks true t
      else is_letter c && single_blanks false t
  end.

(** Letters and blanks only. *)
Fixpoint plain (s : string) : bool :=
  match s with
  | EmptyString => true
  | String c t => (is_letter c || Ascii.eqb c " ") && plain t
  end.

(** ** [plot_shap_bar_chart] and the callback [predict_sentiment] *)

(** What the bar chart is drawn from: the scores, the word stems, the bar
    colours and the count shown in the title. *)
Record bar_chart := BarChart {
  bc_x : list Q;
  bc_y : list string;
  bc_colors : list string;
  bc_count : Z
}.

(** The exceptions the callback can end in. *)
Inductive exception := AttributeError | TypeError | KeyError.

(** What the callback hands back: the "No analysis available." answer, an
    exception, or the chart with the tagged text (the confidence plot is
    left out). *)
Inductive outcome :=
| NoAnalysis
| Raises (e : exception)
| Analysis (chart : bar_chart) (tagged : spacy_data).

Section Dashboard.

(** NLTK's [word_tokenize] and the loaded resources. *)
Variable word_tokenize : string -> list string.
Variable slang_dict : gmap string (gmap string string).
Variable stopwords : list string.
Variable stem : string -> string.

(** The vectoriser and the tree explainer: the SHAP values of a cleaned
    text, set on the vectoriser's feature names. *)
Variable explain : string -> frame.

(** The rendering [f"{v:.2f}"] of a score. *)
Variable fmt2 : Q -> string.

(** [colors.to_hex(plt.cm.Reds(pos_norm(v)))] and
    [colors.to_hex(plt.cm.Blues(1 - abs(neg_norm(v))))]. *)
Variable pos_color : Q -> string.
Variable neg_color : Q -> string.

(** The text of a label, ["POS (0.52)"] or ["NEG (-0.30)"]. *)
Definition label_text (l : label) : string :=
  ((match lab_sign l with POS => "POS" | NEG => "NEG" end)
     ++ " (" ++ fmt2 (lab_value l) ++ ")")%string.

Definition color_of (l : label) : string :=
  match lab_sign l with
  | POS => pos_color (lab_value l)
  | NEG => neg_color (lab_value l)
  end.

(** [color_options = {**positive_colors, **negative_colors}]: a later
    entry with the same text replaces an earlier one. *)
Definition color_options (shap_values_df top_n_shap_values_df : frame)
  : gmap string string :=
  foldl (fun m l => <[ label_text l := color_of l ]> m) ∅
        (color_labels shap_values_df top_n_shap_values_df).

(** [plot_shap_bar_chart]: [None] when a label has no colour (the
    [KeyError] of [color_options[...]]). *)
Definition plot_shap_bar_chart (top_n_shap_values_df : frame) (top_n : Z)
    (colors : gmap string string) : option bar_chart :=
  bar_colors ← mapM (fun r : string * Q => colors !! label_text (make_label r.2))
                    top_n_shap_values_df;
  Some (BarChart (map snd top_n_shap_values_df) (map fst top_n_shap_values_df)
                 bar_colors top_n).

(** The callback [predict_sentiment].  [top_n] is the value of the number
    box, [None] when the box is empty: [nlargest(None)] raises
    [TypeError]. *)
Definition predict_sentiment (n_clicks : Z) (top_n : option Z)
    (input_text : string) : outcome :=
  if (0 <? n_clicks) && negb (String.eqb input_text "") then
    match preprocess_with_tracking word_tokenize slang_dict stopwords stem
            input_text with
    | None => Raises AttributeError
    | Some (processed_text, word_mapping) =>
        match top_n with
        | None => Raises TypeError
        | Some top_n =>
            let '(shap_values_df, top_n_shap_values_df, top_n) :=
              compute_shap_values (explain processed_text) word_mapping top_n in
            let tagged :=
              generate_spacy_visualization input_text (word_tokenize input_text)
                shap_values_df top_n_shap_values_df word_mapping in
            match plot_shap_bar_chart top_n_shap_values_df top_n
                    (color_options shap_values_df top_n_shap_values_df) with
            | Some chart => Analysis chart tagged
            | None => Raises KeyError
            end
        end
    end
  else NoAnalysis.

End Dashboard.

(** A tokenizer for the samples: it cuts at blanks. *)
Fixpoint split_blanks (word : string) (s : string) : list string :=
  match s with
  | EmptyString => match word with EmptyString => [] | _ => [word] end
  | String c t =>
      if Ascii.eqb c " "
      then match word with
           | EmptyString => split_blanks EmptyString t
           | _ => word :: split_blanks EmptyString t
           end
      else split_blanks (word ++ String c EmptyString) t
  end.

(** * Properties *)

(** ** Facts on the string primitives *)

Module PyFacts.

Lemma app_cons (c : ascii) (a b : string) :
  (String c a ++ b)%string = String c (a ++ b).
Proof. reflexivity. Qed.

Lemma app_nil (b : string) : (EmptyString ++ b)%string = b.
Proof. reflexivity. Qed.

Lemma length_app (a b : string) :
  String.length (a ++ b) = (String.length a + String.length b)%nat.
Proof.
  induction a as [|c a IH]; [reflexivity|].
  rewrite app_cons. simpl. now rewrite IH.
Qed.

Lemma take_all (n : nat) (s : string) :
  (String.length s <= n)%nat -> Py.take n s = s.
Proof.
  revert n; induction s as [|c s IH]; intros [|n] H; simpl in *;
    try reflexivity; try lia.
  f_equal; apply IH; lia.
Qed.

Lemma take_app_ge (n : nat) (a b : string) :
  (String.length a <= n)%nat ->
  Py.take n (a ++ b) = (a ++ Py.take (n - String.length a) b)%string.
Proof.
  revert n; induction a as [|c a IH]; intros n H; simpl in *.
  - now rewrite !app_nil, Nat.sub_0_r.
  - destruct n as [|n]; [lia|]. rewrite !app_cons. simpl. f_equal. apply IH. lia.
Qed.

Lemma drop_app_ge (n : nat) (a b : string) :
  (String.length a <= n)%nat ->
  Py.drop n (a ++ b) = Py.drop (n - String.length a) b.
Proof.
  revert n; induction a as [|c a IH]; intros n H; simpl in *.
  - now rewrite app_nil, Nat.sub_0_r.
  - destruct n as [|n]; [lia|]. rewrite app_cons. simpl. apply IH. lia.
Qed.

Lemma take_drop (n : nat) (s : string) :
  (Py.take n s ++ Py.drop n s)%string = s.
Proof.
  revert s; induction n as [|n IH]; intros [|c s]; simpl; try reflexivity.
  now rewrite app_cons, IH.
Qed.

Lemma length_take (n : nat) (s : string) :
  String.length (Py.take n s) = Nat.min n (String.length s).
Proof.
  revert s; induction n as [|n IH]; intros [|c s]; simpl; try reflexivity.
  now rewrite IH.
Qed.

Lemma length_drop (n : nat) (s : string) :
  String.length (Py.drop n s) = (String.length s - n)%nat.
Proof.
  revert s; induction n as [|n IH]; intros [|c s]; simpl; try reflexivity.
  apply IH.
Qed.

Lemma drop_drop (n m : nat) (s : string) :
  Py.drop m (Py.drop n s) = Py.drop (n + m) s.
Proof.
  revert s; induction n as [|n IH]; intros s; simpl.
  - reflexivity.
  - destruct s as [|c s]; simpl; [now destruct m | apply IH].
Qed.

Lemma count_app (c : ascii) (a b : string) :
  Py.count c (a ++ b) = (Py.count c a + Py.count c b)%nat.
Proof.
  induction a as [|d a IH]; [reflexivity|].
  rewrite app_cons. simpl. rewrite IH. lia.
Qed.

(** A longer prefix holds at least as many occurrences. *)
Lemma count_take_mono (c : ascii) (n m : nat) (s : string) :
  (n <= m)%nat -> (Py.count c (Py.take n s) <= Py.count c (Py.take m s))%nat.
Proof.
  revert m s; induction n as [|n IH]; intros m s H; simpl; [lia|].
  destruct s as [|d s]; [simpl; lia|].
  destruct m as [|m]; [lia|]. simpl.
  specialize (IH m s ltac:(lia)). lia.
Qed.

(** A prefix loses at most its last character's worth when shortened. *)
Lemma count_take_S (c : ascii) (n : nat) (s : string) :
  (Py.count c (Py.take (S n) s) <= S (Py.count c (Py.take n s)))%nat.
Proof.
  revert s; induction n as [|n IH]; intros [|d s]; simpl; try lia.
  - destruct s; simpl; destruct (Ascii.eqb d c); simpl; lia.
  - specialize (IH s). simpl in IH. lia.
Qed.

(** Putting one [c] into a text, wherever, lowers no prefix count. *)
Lemma count_take_insert (c : ascii) (k n : nat) (s : string) :
  (Py.count c (Py.take k s)
   <= Py.count c (Py.take k (Py.take n s ++ String c (Py.drop n s))))%nat.
Proof.
  revert k s; induction n as [|n IH]; intros k s.
  - simpl. replace (Py.drop 0 s) with s by now destruct s.
    destruct k as [|k]; simpl; [lia|].
    rewrite Ascii.eqb_refl.
    destruct s as [|d s]; simpl; [lia|].
    pose proof (count_take_S c k (String d s)) as H. simpl in H.
    destruct k as [|k]; simpl in *; lia.
  - destruct s as [|d s]; simpl.
    + destruct k; simpl; lia.
    + destruct k as [|k]; simpl; [lia|].
      specialize (IH k s). lia.
Qed.

Lemma bound_nonneg (s : string) (k : Z) : 0 <= k -> Py.bound s k = Z.to_nat k.
Proof. intros H. unfold Py.bound. destruct (Z.ltb_spec k 0); [lia | reflexivity]. Qed.

(** A successful search lands at or after the start and inside the text. *)
Lemma find_aux_bounds (w s : string) (skip pos p : nat) :
  Py.find_aux w s skip pos = Some p ->
  (pos + skip <= p)%nat.
Proof.
  revert skip pos; induction s as [|c s IH]; intros skip pos.
  - destruct skip; simpl; [|discriminate].
    destruct w; [|discriminate]. intros [= <-]. lia.
  - destruct skip as [|skip]; cbn [Py.find_aux].
    + destruct (String.prefix w (String c s)).
      * intros [= <-]. lia.
      * intros H. apply IH in H. lia.
    + intros H. apply IH in H. lia.
Qed.

Lemma find_ge (s w : string) (start : Z) :
  0 <= start -> Py.find s w start <> -1 -> start <= Py.find s w start.
Proof.
  intros Hs. unfold Py.find.
  destruct (Py.find_aux w s (Py.bound s start) 0) as [p|] eqn:E; [|congruence].
  intros _. apply find_aux_bounds in E.
  rewrite bound_nonneg in E by assumption. lia.
Qed.

End PyFacts.

(** ** The reverse map *)

Lemma reverse_mapping_snoc (wm : list (string * string)) (o p : string) :
  reverse_mapping (wm ++ [(o, p)]) = <[ o := p ]> (reverse_mapping wm).
Proof. unfold reverse_mapping. now rewrite foldl_app. Qed.



(** ** Which tokens are highlighted *)

Lemma entity_of_Some rm df word start end_ e :
  entity_of rm df (word, start, end_) = Some e <->
  exists processed v,
    rm !! word = Some processed /\ shap_at df processed = Some v
    /\ (threshold <= Qabs v)%Q /\ e = Entity start end_ (make_label v).
Proof.
  unfold entity_of. split.
  - destruct (rm !! word) as [processed|] eqn:E1; [|discriminate].
    destruct (shap_at df processed) as [v|] eqn:E2; [|discriminate].
    destruct (Qle_bool threshold (Qabs v)) eqn:E; [|discriminate].
    intros [= <-]. exists processed, v.
    split; [reflexivity|]. split; [assumption|].
    split; [now apply Qle_bool_iff | reflexivity].
  - intros (processed & v & -> & -> & Hv & ->).
    apply Qle_bool_iff in Hv. now rewrite Hv.
Qed.

Lemma elem_of_entities (rm : gmap string string) (df : frame)
    (wps : list position) (e : entity) :
  e ∈ entities rm df wps <->
  exists word start end_ processed v,
    (word, start, end_) ∈ wps
    /\ rm !! word = Some processed
    /\ shap_at df processed = Some v
    /\ (threshold <= Qabs v)%Q
    /\ e = Entity start end_ (make_label v).
Proof.
  unfold entities. rewrite list_elem_of_omap. split.
  - intros ([[word start] end_] & Hin & He).
    apply entity_of_Some in He. destruct He as (processed & v & H1 & H2 & H3 & H4).
    now exists word, start, end_, processed, v.
  - intros (word & start & end_ & processed & v & Hin & H1 & H2 & H3 & H4).
    exists (word, start, end_). split; [assumption|].
    apply entity_of_Some. now exists processed, v.
Qed.

(** C3, as the code has it: a located token is highlighted exactly when
    its surface form is a key of the reverse map and the mapped form has a
    score of magnitude at least [0.01] in the importance table.  The top-N
    table plays no part in it; a token that is no key of the reverse map
    (one that normalisation left unchanged, for instance) gets no span. *)
Theorem highlighted_iff_mapped_and_significant
    (input_text : string) (original_words : list string) (df top top' : frame)
    (word_mapping : list (string * string)) :
  sd_ents (generate_spacy_visualization input_text original_words df top
             word_mapping)
  = sd_ents (generate_spacy_visualization input_text original_words df top'
               word_mapping)
  /\ forall e : entity,
       e ∈ entities (reverse_mapping word_mapping) df
             (word_positions input_text original_words) <->
       exists word start end_ processed v,
         (word, start, end_) ∈ word_positions input_text original_words
         /\ reverse_mapping word_mapping !! word = Some processed
         /\ shap_at df processed = Some v
         /\ (threshold <= Qabs v)%Q
         /\ e = Entity start end_ (make_label v).
Proof. split; [reflexivity|]. intros e. apply elem_of_entities. Qed.

(** C3 fails for a token that normalisation leaves unchanged: in
    ["best film"] the token [film] is its own stem, so the log has no record
    for it; its score [0.5] is far above the threshold, and yet no span is
    emitted ([best], stemmed to itself as well, is not highlighted either). *)
Lemma unchanged_token_not_highlighted :
  let df := [("best", 3 # 10); ("film", 1 # 2)]%Q in
  track sample_slang ["the"; "was"] sample_stem ["best"; "film"]
  = Some ("best film", [])
  /\ shap_at df "film" = Some (1 # 2)%Q
  /\ (threshold <= Qabs (1 # 2))%Q
  /\ sd_ents (generate_spacy_visualization "best film" ["best"; "film"]
                df df []) = [].
Proof. vm_compute. repeat split; congruence. Qed.

(** ** Offsets of tokens that are not found *)

(** A token that the forward search misses is still recorded, at start
    [-1], and the cursor is moved back to [len(word) - 1]. *)
Lemma word_positions_miss (text : string) (cur : Z) (word : string)
    (rest : list string) :
  Py.find text word cur = -1 ->
  word_positions_from text cur (word :: rest)
  = (word, -1, Py.len word - 1)
      :: word_positions_from text (Py.len word - 1) rest.
Proof.
  intros H. cbn [word_positions_from]. rewrite H.
  now replace (-1 + Py.len word) with (Py.len word - 1) by lia.
Qed.

(** C1 at a failing input, the review [a "bad" terrible film''].  NLTK
    gives the tokens [a], [``], [bad], [''], [terrible], [film], [''].  The
    opening quote is not in the text; the closing one is searched from
    [6] and found in the two apostrophes at the end, which carries the
    cursor to [23], past [terrible].  So [terrible] is not found: it is
    recorded at [(-1, 7)], and being a key of the log that preprocessing
    writes for this review, with a stem of score [-0.5], it is handed to
    the renderer as the span [(-1, 7)]. *)
Theorem unmatched_token_keeps_offset_and_span :
  let text := ("a " ++ dq ++ "bad" ++ dq ++ " terrible film''")%string in
  let words := ["a"; "``"; "bad"; "''"; "terrible"; "film"; "''"] in
  let df := [("terribl", - (1 # 2))%Q] in
  clean_text text = "a bad terrible film"
  /\ track sample_slang ["a"; "the"; "was"] sample_stem
       ["a"; "bad"; "terrible"; "film"]
     = Some ("bad terribl film", [("terrible", "terribl")])
  /\ Py.find text "terrible" 23 = -1
  /\ word_positions text words
     = [("a", 0, 1); ("``", -1, 1); ("bad", 3, 6); ("''", 21, 23);
        ("terrible", -1, 7); ("film", 17, 21); ("''", 21, 23)]
  /\ sd_ents (generate_spacy_visualization text words df df
                [("terrible", "terribl")])
     = [Entity (-1) 7 (Label NEG (- (1 # 2))%Q)].
Proof. vm_compute. repeat split; reflexivity. Qed.

(** ** Order of the emitted spans *)

Lemma len_nonneg (s : string) : 0 <= Py.len s.
Proof. unfold Py.len. lia. Qed.

Lemma word_positions_from_ordered (text : string) (words : list string) :
  forall cur : Z,
    0 <= cur ->
    Forall (fun wp : position => wp.1.2 <> -1)
           (word_positions_from text cur words) ->
    Forall (fun wp : position => cur <= wp.1.2) (word_positions_from text cur words)
    /\ StronglySorted pos_before (word_positions_from text cur words).
Proof.
  induction words as [|word rest IH]; intros cur Hcur Hall; cbn in *.
  - split; constructor.
  - inversion Hall as [|? ? Hhd Htl]; subst; cbn in Hhd.
    pose proof (PyFacts.find_ge text word cur Hcur Hhd) as Hge.
    pose proof (len_nonneg word) as Hlen.
    destruct (IH (Py.find text word cur + Py.len word) ltac:(lia) Htl)
      as [Hlo Hsorted].
    split.
    + constructor; cbn; [lia|].
      eapply Forall_impl; [exact Hlo|]. cbn. intros; lia.
    + constructor; [assumption|].
      eapply Forall_impl; [exact Hlo|]. unfold pos_before; cbn. intros; lia.
Qed.

Lemma StronglySorted_omap {A B : Type} (R : relation A) (R' : relation B)
    (f : A -> option B) (l : list A) :
  (forall x y a b, f x = Some a -> f y = Some b -> R x y -> R' a b) ->
  StronglySorted R l -> StronglySorted R' (omap f l).
Proof.
  intros Hf. induction 1 as [|x l Hl IH Hx]; cbn; [constructor|].
  destruct (f x) as [a|] eqn:E; [|assumption].
  constructor; [assumption|].
  apply Forall_forall. intros b Hb.
  apply list_elem_of_omap in Hb. destruct Hb as (y & Hy & Hfy).
  rewrite Forall_forall in Hx. eauto.
Qed.

Lemma StronglySorted_map {A B : Type} (R : relation A) (R' : relation B)
    (f : A -> B) (l : list A) :
  (forall x y, R x y -> R' (f x) (f y)) ->
  StronglySorted R l -> StronglySorted R' (map f l).
Proof.
  intros Hf. induction 1 as [|x l Hl IH Hx]; cbn; constructor; [assumption|].
  apply Forall_forall. intros b Hb. apply list_elem_of_In, in_map_iff in Hb.
  destruct Hb as (y & <- & Hy). apply list_elem_of_In in Hy.
  rewrite Forall_forall in Hx. eauto.
Qed.

Lemma underscores_before_mono (mt : string) (x y : Z) :
  0 <= x -> x <= y -> underscores_before mt x <= underscores_before mt y.
Proof.
  intros Hx Hxy. unfold underscores_before, Py.slice_to.
  rewrite !PyFacts.bound_nonneg by lia.
  apply inj_le, PyFacts.count_take_mono. lia.
Qed.

(** What C4 asks for holds whenever the forward search finds every token:
    the spans handed to the renderer are pairwise clear of each other. *)
Lemma spans_clear_when_all_found (input_text : string)
    (original_words : list string) (df top : frame)
    (word_mapping : list (string * string)) :
  Forall (fun wp : position => wp.1.2 <> -1)
         (word_positions input_text original_words) ->
  StronglySorted clear_of
    (sd_ents (generate_spacy_visualization input_text original_words df top
                word_mapping)).
Proof.
  intros Hall. cbn [generate_spacy_visualization sd_ents].
  apply word_positions_from_ordered in Hall as [_ Hsorted]; [|lia].
  apply StronglySorted_map with (R := ent_before).
  - intros x y (H0 & H1 & H2). unfold clear_of; cbn.
    pose proof (underscores_before_mono
                  (add_underscores
                     (entities (reverse_mapping word_mapping) df
                        (word_positions input_text original_words))
                     input_text 0).1 (ent_end x) (ent_start y)
                  ltac:(lia) H2).
    lia.
  - eapply StronglySorted_omap; [|exact Hsorted].
    intros [[w1 s1] e1] [[w2 s2] e2] a b Ha Hb (H0 & H1 & H2).
    apply entity_of_Some in Ha as (? & ? & _ & _ & _ & ->).
    apply entity_of_Some in Hb as (? & ? & _ & _ & _ & ->).
    unfold ent_before; cbn in *. lia.
Qed.

(** C4 at a failing input: the review [a terrible "terrible"].  NLTK's
    token for the opening quote is not in the text, the cursor falls back
    to [1], the second [terrible] is located on the first, and the two
    emitted spans coincide: the first ends at [10], the second starts
    at [2]. *)
Theorem spans_overlap_after_unmatched_quote :
  let out := generate_spacy_visualization
               ("a terrible " ++ dq ++ "terrible" ++ dq)%string
               ["a"; "terrible"; "``"; "terrible"; "''"]
               [("terribl", - (1 # 2))%Q] [("terribl", - (1 # 2))%Q]
               [("terrible", "terribl")] in
  sd_ents out = [Entity 2 10 (Label NEG (- (1 # 2))%Q);
                 Entity 2 10 (Label NEG (- (1 # 2))%Q)]
  /\ ~ Sorted clear_of (sd_ents out).
Proof.
  cbv zeta. split; [vm_compute; reflexivity|].
  intros H. inversion H as [|? ? _ Hhd]; subst.
  inversion Hhd as [|? ? Hc]; subst.
  revert Hc. vm_compute. intros Hc. apply Hc. reflexivity.
Qed.

(** ** Underscore insertion *)

Lemma str_app_assoc (a b c : string) :
  ((a ++ b) ++ c)%string = (a ++ b ++ c)%string.
Proof.
  induction a as [|d a IH]; [reflexivity|].
  rewrite !PyFacts.app_cons. now rewrite IH.
Qed.

Lemma ends_within_weaken (lo lo' hi : Z) (ents : list entity) :
  lo' <= lo -> ends_within lo hi ents -> ends_within lo' hi ents.
Proof. destruct ents; cbn; [trivial|]. intros ? [? ?]. split; [lia|assumption]. Qed.

Lemma add_underscores_step (e e' : entity) (rest : list entity)
    (mt : string) (off : Z) :
  add_underscores (e :: e' :: rest) mt off
  = if ent_end e + off + 1 =? ent_start e' + off
    then add_underscores (e' :: rest)
           (Py.slice_to mt (ent_end e + off) ++ "_"
              ++ Py.slice_from mt (ent_end e + off))%string
           (off + 1)
    else add_underscores (e' :: rest) mt off.
Proof. reflexivity. Qed.

Lemma insertion_points_step (e e' : entity) (rest : list entity) :
  insertion_points (e :: e' :: rest)
  = if ent_end e + 1 =? ent_start e'
    then ent_end e :: insertion_points (e' :: rest)
    else insertion_points (e' :: rest).
Proof. reflexivity. Qed.

Lemma add_underscores_splice (ents : list entity) :
  forall (A B : string) (base off : Z),
    0 <= base -> 0 <= off -> Py.len A = base + off ->
    ends_within base (base + Py.len B) ents ->
    add_underscores ents (A ++ B)%string off
    = ((A ++ splice B base (insertion_points ents))%string,
       off + Z.of_nat (List.length (insertion_points ents))).
Proof.
  induction ents as [|e rest IH]; intros A B base off Hb Ho HA Hw.
  - cbn. f_equal. lia.
  - destruct rest as [|e' rest'].
    + cbn. f_equal. lia.
    + destruct Hw as [He Hw].
      rewrite add_underscores_step, insertion_points_step.
      destruct (ent_end e + off + 1 =? ent_start e' + off) eqn:E.
      * replace (ent_end e + 1 =? ent_start e') with true
          by (symmetry; apply Z.eqb_eq; apply Z.eqb_eq in E; lia).
        unfold Py.slice_to, Py.slice_from.
        rewrite PyFacts.bound_nonneg by lia.
        assert (HlenA : String.length A = Z.to_nat (base + off))
          by (unfold Py.len in HA; lia).
        rewrite PyFacts.take_app_ge, PyFacts.drop_app_ge by lia.
        replace (Z.to_nat (ent_end e + off) - String.length A)%nat
          with (Z.to_nat (ent_end e - base)) by lia.
        set (k := Z.to_nat (ent_end e - base)).
        replace ((A ++ Py.take k B) ++ "_" ++ Py.drop k B)%string
          with ((A ++ Py.take k B ++ "_") ++ Py.drop k B)%string
          by (now rewrite !str_app_assoc).
        rewrite (IH _ _ (ent_end e) (off + 1)); try lia.
        -- cbn [splice List.length]. unfold Py.slice_to, Py.slice_from.
           rewrite PyFacts.bound_nonneg by lia. fold k.
           rewrite !str_app_assoc. f_equal. lia.
        -- unfold Py.len in *.
           rewrite !PyFacts.length_app, PyFacts.length_take. cbn. lia.
        -- unfold Py.len in *. rewrite PyFacts.length_drop.
           replace (ent_end e + Z.of_nat (String.length B - k))
             with (base + Z.of_nat (String.length B)) by lia.
           exact Hw.
      * replace (ent_end e + 1 =? ent_start e') with false
          by (symmetry; apply Z.eqb_neq; apply Z.eqb_neq in E; lia).
        apply IH; try assumption.
        apply ends_within_weaken with (lo := ent_end e); [lia | exact Hw].
Qed.

(** C5, as the code has it: one underscore is inserted for each pair of
    consecutive spans with exactly one character between them
    ([span[i].end + 1 = span[i+1].start]), right after [span[i]], that is
    in front of the raw offset [span[i].end]; no other pair, a pair with
    no gap included, gets one.  The final [offset] counts them. *)
Theorem separators_follow_one_char_gaps (input_text : string)
    (ents : list entity) :
  ends_within 0 (Py.len input_text) ents ->
  add_underscores ents input_text 0
  = (splice input_text 0 (insertion_points ents),
     Z.of_nat (List.length (insertion_points ents))).
Proof.
  intros Hw.
  apply (add_underscores_splice ents "" input_text 0 0); try lia.
  - reflexivity.
  - exact Hw.
Qed.

Lemma separators_follow_one_char_gaps_witness :
  ends_within 0 (Py.len "awful boring")
    [Entity 0 5 (Label NEG (- (1 # 2))%Q); Entity 6 12 (Label NEG (- (1 # 2))%Q)]
  /\ add_underscores
       [Entity 0 5 (Label NEG (- (1 # 2))%Q); Entity 6 12 (Label NEG (- (1 # 2))%Q)]
       "awful boring" 0
     = ("awful_ boring", 1).
Proof.
  assert (H : ends_within 0 (Py.len "awful boring")
                [Entity 0 5 (Label NEG (- (1 # 2))%Q);
                 Entity 6 12 (Label NEG (- (1 # 2))%Q)])
    by (vm_compute; repeat split; discriminate).
  split; [exact H|].
  exact (separators_follow_one_char_gaps "awful boring" _ H).
Defined.

(** C5 fails in each of its parts.  (1) In ["awful boring"] the spans
    [(0,5)] and [(6,12)] are one character apart, not adjacent with zero
    gap, and an underscore is inserted at index [5], right after the first
    span and not right in front of the second.  (2) The zero-gap spans
    [(0,3)] and [(3,5)] of ["gimme"] get no separator.  (3) In
    ["awful boring movies"] two separators are inserted in front of the raw
    offset [13] of [movies], but its adjusted start is [13 + 1]. *)
Lemma separator_not_on_zero_gap :
  add_underscores
    [Entity 0 5 (Label NEG (- (1 # 2))%Q); Entity 6 12 (Label NEG (- (1 # 2))%Q)]
    "awful boring" 0
  = ("awful_ boring", 1)
  /\ add_underscores
       [Entity 0 3 (Label NEG (- (1 # 2))%Q); Entity 3 5 (Label NEG (- (1 # 2))%Q)]
       "gimme" 0
     = ("gimme", 0)
  /\ (let out := generate_spacy_visualization "awful boring movies"
                   ["awful"; "boring"; "movies"]
                   [("aw", - (1 # 2)); ("bore", - (1 # 2)); ("movi", - (1 # 2))]%Q
                   []
                   [("awful", "aw"); ("boring", "bore"); ("movies", "movi")] in
      sd_text out = "awful_ boring_ movies"
      /\ map ent_start (sd_ents out) = [0; 7; 14]
      /\ map ent_end (sd_ents out) = [5; 13; 21]).
Proof. vm_compute. repeat split; reflexivity. Qed.

(** ** Underscores of the raw text *)

(** The insertions never lower the number of underscores in a prefix. *)
Lemma add_underscores_count (ents : list entity) :
  forall (mt : string) (off : Z) (k : nat),
    (Py.count "_" (Py.take k mt)
     <= Py.count "_" (Py.take k (add_underscores ents mt off).1))%nat.
Proof.
  induction ents as [|e rest IH]; intros mt off k; [cbn; lia|].
  destruct rest as [|e' rest']; [cbn; lia|].
  rewrite add_underscores_step.
  destruct (ent_end e + off + 1 =? ent_start e' + off); [|apply IH].
  etransitivity; [|apply IH].
  unfold Py.slice_to, Py.slice_from.
  apply (PyFacts.count_take_insert "_" k (Py.bound mt (ent_end e + off)) mt).
Qed.

(** The final [offset] tells whether anything was inserted. *)
Lemma add_underscores_offset (ents : list entity) :
  forall (mt : string) (off : Z),
    off <= (add_underscores ents mt off).2
    /\ ((add_underscores ents mt off).2 = off ->
        (add_underscores ents mt off).1 = mt).
Proof.
  induction ents as [|e rest IH]; intros mt off; [cbn; split; [lia|trivial]|].
  destruct rest as [|e' rest']; [cbn; split; [lia|trivial]|].
  rewrite add_underscores_step.
  destruct (ent_end e + off + 1 =? ent_start e' + off).
  - match goal with |- context [add_underscores _ ?t _] =>
      destruct (IH t (off + 1)) as [Hle _] end.
    split; [lia|]. intros Heq. lia.
  - apply IH.
Qed.

Lemma get_count (c : ascii) (s : string) :
  forall p n : nat,
    String.get p s = Some c -> (p < n)%nat ->
    (1 <= Py.count c (Py.take n s))%nat.
Proof.
  induction s as [|d s IH]; intros p n Hget Hlt; [destruct p; discriminate|].
  destruct n as [|n]; [lia|]. cbn [Py.take Py.count].
  destruct p as [|p]; cbn in Hget.
  - injection Hget as ->. rewrite Ascii.eqb_refl. lia.
  - specialize (IH p n Hget ltac:(lia)). lia.
Qed.

(** C10, as the code has it.  A span is shifted by the number of all
    underscores among the first [start] (resp. [end]) characters of the
    working text, the raw ones included.  So, when the raw text has an
    underscore in front of a highlighted token found at [start >= 0], the
    adjusted start and end exceed the token's offsets; and when no separator
    was inserted the text shown is the raw text, where the token begins at
    [start], left of the adjusted span: the span does not cover it. *)
Theorem raw_underscore_shifts_span (input_text : string) (ents : list entity)
    (e : entity) (p : nat) :
  e ∈ ents ->
  0 <= ent_start e <= ent_end e ->
  (p < Z.to_nat (ent_start e))%nat ->
  String.get p input_text = Some "_"%char ->
  let r := add_underscores ents input_text 0 in
  let a := adjust r.1 e in
  ent_start a = ent_start e + underscores_before r.1 (ent_start e)
  /\ ent_end a = ent_end e + underscores_before r.1 (ent_end e)
  /\ ent_start e < ent_start a
  /\ ent_end e < ent_end a
  /\ (r.2 = 0 -> r.1 = input_text /\ ~ ent_start a <= ent_start e).
Proof.
  intros _ Hse Hp Hget r a.
  assert (Hs : 1 <= underscores_before r.1 (ent_start e)).
  { unfold underscores_before, Py.slice_to.
    rewrite PyFacts.bound_nonneg by lia.
    pose proof (get_count _ _ _ _ Hget Hp) as H1.
    pose proof (add_underscores_count ents input_text 0
                  (Z.to_nat (ent_start e))) as H2.
    fold r in H2. lia. }
  pose proof (underscores_before_mono r.1 (ent_start e) (ent_end e)
                ltac:(lia) ltac:(lia)) as He.
  subst a. cbn [adjust ent_start ent_end].
  repeat split; try lia.
  apply (add_underscores_offset ents input_text 0). assumption.
Qed.

Lemma raw_underscore_shifts_span_witness :
  let e := Entity 7 12 (Label NEG (- (1 # 2))%Q) in
  let r := add_underscores [e] "sci_fi awful" 0 in
  e ∈ [e]
  /\ 0 <= ent_start e <= ent_end e
  /\ (3 < Z.to_nat (ent_start e))%nat
  /\ String.get 3 "sci_fi awful" = Some "_"%char
  /\ ent_start e < ent_start (adjust r.1 e)
  /\ ent_end e < ent_end (adjust r.1 e)
  /\ r.1 = "sci_fi awful".
Proof.
  intros e r.
  assert (H1 : e ∈ [e]) by (apply list_elem_of_In; left; reflexivity).
  assert (H2 : 0 <= ent_start e <= ent_end e) by (cbn; lia).
  assert (H3 : (3 < Z.to_nat (ent_start e))%nat) by (cbn; lia).
  assert (H4 : String.get 3 "sci_fi awful" = Some "_"%char) by reflexivity.
  destruct (raw_underscore_shifts_span "sci_fi awful" [e] e 3 H1 H2 H3 H4)
    as (_ & _ & Hs & He & Hz).
  repeat (split; [assumption|]).
  apply Hz. reflexivity.
Defined.

(** C10 fails where separators are inserted: the shortfall of the count on
    inserted separators can make up for the raw underscore.  In
    ["sci_fi u r lol k"], with all four slang tokens highlighted, the text
    becomes ["sci_fi u_ r_ lol_ k"] and the span of [k], raw offsets
    [(15, 16)], is adjusted to [(18, 19)], exactly where [k] stands in the
    text shown. *)
Lemma raw_underscore_shift_can_cancel :
  let out := generate_spacy_visualization "sci_fi u r lol k"
               ["sci_fi"; "u"; "r"; "lol"; "k"]
               [("you", 1 # 10); ("are", 1 # 10); ("laugh", 1 # 2);
                ("okay", 3 # 10)]%Q []
               [("u", "you"); ("r", "are"); ("lol", "laugh"); ("k", "okay")] in
  word_positions "sci_fi u r lol k" ["sci_fi"; "u"; "r"; "lol"; "k"]
  = [("sci_fi", 0, 6); ("u", 7, 8); ("r", 9, 10); ("lol", 11, 14); ("k", 15, 16)]
  /\ String.get 3 "sci_fi u r lol k" = Some "_"%char
  /\ sd_text out = "sci_fi u_ r_ lol_ k"
  /\ last (sd_ents out) = Some (Entity 18 19 (Label POS (3 # 10)%Q))
  /\ Py.find (sd_text out) "k" 0 = 18
  /\ Py.slice_to (Py.slice_from (sd_text out) 18) (19 - 18) = "k".
Proof. vm_compute. repeat split; reflexivity. Qed.

(** ** The selector *)

#[local] Instance abs_desc_total : Total abs_desc.
Proof.
  intros r1 r2. unfold abs_desc.
  destruct (Qlt_le_dec (Qabs r1.2) (Qabs r2.2)) as [H|H];
    [right; now apply Qlt_le_weak | left; exact H].
Qed.

#[local] Instance abs_desc_trans : Transitive abs_desc.
Proof. intros r1 r2 r3 H12 H23. unfold abs_desc in *. eapply Qle_trans; eassumption. Qed.

#[local] Instance shap_asc_total : Total shap_asc.
Proof.
  intros r1 r2. unfold shap_asc.
  destruct (Qlt_le_dec r1.2 r2.2) as [H|H];
    [left; now apply Qlt_le_weak | right; exact H].
Qed.

#[local] Instance shap_asc_trans : Transitive shap_asc.
Proof. intros r1 r2 r3 H12 H23. unfold shap_asc in *. eapply Qle_trans; eassumption. Qed.

Lemma NoDup_names_filter (f : string * Q -> bool) (df : frame) :
  NoDup (map fst df) -> NoDup (map fst (List.filter f df)).
Proof.
  induction df as [|r df IH]; cbn; intros H; [constructor|].
  apply NoDup_cons in H as [Hr Hdf].
  destruct (f r); cbn; [|now apply IH].
  apply NoDup_cons. split; [|now apply IH].
  intros Hin. apply Hr.
  apply list_elem_of_In, in_map_iff in Hin. destruct Hin as (x & Hx & Hin).
  apply filter_In in Hin as [Hin _].
  apply list_elem_of_In, in_map_iff. now exists x.
Qed.

Lemma filter_label_absent (df : frame) (l : string) :
  l ∉ map fst df -> List.filter (fun x => String.eqb x.1 l) df = [].
Proof.
  induction df as [|z df IH]; intros Hl; [reflexivity|]. cbn in *.
  destruct (String.eqb_spec z.1 l) as [Heq|Hne].
  - exfalso. apply Hl. rewrite <- Heq. left.
  - apply IH. intros H. apply Hl. now right.
Qed.

(** With distinct labels, a label selects the one row that carries it. *)
Lemma filter_label_unique (df : frame) (r : string * Q) :
  NoDup (map fst df) -> r ∈ df ->
  List.filter (fun x => String.eqb x.1 r.1) df = [r].
Proof.
  induction df as [|x df IH]; intros Hnd Hin; [now apply elem_of_nil in Hin|].
  cbn in Hnd. apply NoDup_cons in Hnd as [Hx Hdf].
  apply elem_of_cons in Hin as [->|Hin]; cbn.
  - rewrite String.eqb_refl. f_equal. now apply filter_label_absent.
  - destruct (String.eqb_spec x.1 r.1) as [Heq|Hne].
    + exfalso. apply Hx. rewrite Heq.
      apply list_elem_of_In, in_map_iff. exists r. split; [reflexivity|].
      now apply list_elem_of_In.
    + now apply IH.
Qed.

Lemma loc_labels_rows (df l : frame) :
  NoDup (map fst df) -> (forall r, r ∈ l -> r ∈ df) ->
  loc_labels df (map fst l) = l.
Proof.
  intros Hnd. induction l as [|r l IH]; intros Hsub; [reflexivity|].
  cbn. rewrite filter_label_unique; [|assumption|apply Hsub; left].
  cbn. f_equal. apply IH. intros x Hx. apply Hsub. now right.
Qed.

(** With distinct feature names, the selected rows are the first [n] rows
    of the table sorted by decreasing magnitude. *)
Lemma selected_rows (df : frame) (n : Z) :
  NoDup (map fst df) ->
  loc_labels df (nlargest_abs_index n df)
  = firstn (Z.to_nat n) (merge_sort abs_desc df).
Proof.
  intros Hnd. unfold nlargest_abs_index. apply loc_labels_rows; [assumption|].
  intros r Hr. apply subseteq_take in Hr.
  now rewrite merge_sort_Permutation in Hr.
Qed.

Lemma NoDup_qualifying (df : frame) (wm : list (string * string)) :
  NoDup (map fst df) -> NoDup (map fst (qualifying df wm)).
Proof. intros H. unfold qualifying, loc_significant, loc_isin. now do 2 apply NoDup_names_filter. Qed.

Lemma ranked_rows (df : frame) (wm : list (string * string)) (n : Z) :
  NoDup (map fst df) ->
  (compute_shap_values df wm n).1.2
  = merge_sort shap_asc
      (firstn (Z.to_nat n) (merge_sort abs_desc (qualifying df wm))).
Proof.
  intros Hnd. cbn [compute_shap_values fst snd]. unfold sort_values.
  fold (qualifying df wm).
  now rewrite selected_rows by now apply NoDup_qualifying.
Qed.

(** Every row the selector keeps comes from the twice filtered table. *)
Lemma ranked_qualifying (df : frame) (wm : list (string * string)) (n : Z)
    (r : string * Q) :
  r ∈ (compute_shap_values df wm n).1.2 -> r ∈ qualifying df wm.
Proof.
  cbn [compute_shap_values fst snd]. unfold sort_values.
  rewrite merge_sort_Permutation. fold (qualifying df wm).
  unfold loc_labels. intros Hr.
  apply list_elem_of_In, in_flat_map in Hr. destruct Hr as (l & _ & Hr).
  apply filter_In in Hr as [Hr _]. now apply list_elem_of_In.
Qed.

Lemma qualifying_significant (df : frame) (wm : list (string * string))
    (r : string * Q) :
  r ∈ qualifying df wm -> (threshold <= Qabs r.2)%Q.
Proof.
  unfold qualifying, loc_significant. intros Hr.
  apply list_elem_of_In, filter_In in Hr as [_ Hr]. now apply Qle_bool_iff.
Qed.

(** C8, as the code has it: every row the selector returns and every
    span handed to the renderer carries a score whose magnitude is at least
    the threshold as the comparisons take it, the float nearest to [0.01]
    in the precision of the scores, [5368709 / 2^29]. *)
Theorem threshold_consistency (df top : frame)
    (word_mapping : list (string * string)) (top_n : Z)
    (input_text : string) (original_words : list string) :
  (forall r, r ∈ (compute_shap_values df word_mapping top_n).1.2 ->
             (threshold <= Qabs r.2)%Q)
  /\ (forall e,
        e ∈ sd_ents (generate_spacy_visualization input_text original_words
                       df top word_mapping) ->
        (threshold <= Qabs (lab_value (ent_label e)))%Q).
Proof.
  split.
  - intros r Hr. eapply qualifying_significant, ranked_qualifying, Hr.
  - intros e He. cbn [generate_spacy_visualization sd_ents] in He.
    apply list_elem_of_In, in_map_iff in He. destruct He as (e0 & <- & He0).
    apply list_elem_of_In, elem_of_entities in He0.
    destruct He0 as (w & s & e' & p & v & _ & _ & _ & Hv & ->).
    exact Hv.
Qed.

(** C8 fails at the threshold itself.  The single-precision float nearest
    to [0.01] is [5368709 / 2^29], below one hundredth; a feature with that
    score passes the test [>= 0.01] of the selector and is returned. *)
Lemma score_below_one_hundredth_kept :
  let v := (5368709 # 536870912)%Q in
  (Qabs v < 1 # 100)%Q
  /\ compute_shap_values [("terribl", v)] [("terrible", "terribl")] 10
     = ([("terribl", v)], [("terribl", v)], 1).
Proof. vm_compute. repeat split; reflexivity. Qed.

(** C6, as the code has it: the rows returned are the [top_n] rows of
    largest magnitude among the qualifying ones, and they come back sorted
    by signed score, smallest first ([sort_values(by="SHAP")]). *)
Theorem ranked_ascending_by_signed_score (df : frame)
    (word_mapping : list (string * string)) (top_n : Z) :
  NoDup (map fst df) ->
  let ranked := (compute_shap_values df word_mapping top_n).1.2 in
  StronglySorted shap_asc ranked
  /\ exists rest,
       qualifying df word_mapping ≡ₚ ranked ++ rest
       /\ List.length ranked
          = Nat.min (Z.to_nat top_n) (List.length (qualifying df word_mapping))
       /\ forall r r', r ∈ ranked -> r' ∈ rest -> (Qabs r'.2 <= Qabs r.2)%Q.
Proof.
  intros Hnd ranked. subst ranked. rewrite ranked_rows by assumption.
  set (S := merge_sort abs_desc (qualifying df word_mapping)).
  split; [apply StronglySorted_merge_sort; apply _|].
  exists (drop (Z.to_nat top_n) S).
  assert (HS : StronglySorted abs_desc (take (Z.to_nat top_n) S
                                          ++ drop (Z.to_nat top_n) S)).
  { rewrite take_drop. apply StronglySorted_merge_sort; apply _. }
  split; [|split].
  - rewrite merge_sort_Permutation, take_drop. subst S.
    now rewrite merge_sort_Permutation.
  - rewrite (Permutation_length (merge_sort_Permutation _ _)), length_take.
    subst S. now rewrite (Permutation_length (merge_sort_Permutation _ _)).
  - intros r r' Hr Hr'. rewrite merge_sort_Permutation in Hr.
    exact (StronglySorted_app_1_elem_of _ _ _ _ _ HS Hr Hr').
Qed.

Lemma ranked_ascending_by_signed_score_witness :
  let df := [("amaz", 1 # 2); ("terribl", - (3 # 10)); ("great", 1 # 10)]%Q in
  let wm := [("amazing", "amaz"); ("terrible", "terribl"); ("lit", "great")] in
  NoDup (map fst df)
  /\ StronglySorted shap_asc (compute_shap_values df wm 2).1.2.
Proof.
  cbv zeta.
  assert (Hnd : NoDup (map fst
                   [("amaz", 1 # 2); ("terribl", - (3 # 10)); ("great", 1 # 10)]%Q))
    by (apply (bool_decide_unpack _); vm_compute; reflexivity).
  split; [exact Hnd|].
  exact (proj1 (ranked_ascending_by_signed_score _
                  [("amazing", "amaz"); ("terrible", "terribl"); ("lit", "great")]
                  2 Hnd)).
Defined.

(** C6 fails on three features of a review: the selector returns them as
    [terribl (-0.3)], [great (0.1)], [amaz (0.5)], and the magnitude grows
    from the second to the third. *)
Lemma ranked_not_descending_by_magnitude :
  let ranked :=
    (compute_shap_values
       [("amaz", 1 # 2); ("terribl", - (3 # 10)); ("great", 1 # 10)]%Q
       [("amazing", "amaz"); ("terrible", "terribl"); ("lit", "great")] 10).1.2 in
  ranked = [("terribl", - (3 # 10)); ("great", 1 # 10); ("amaz", 1 # 2)]%Q
  /\ ~ Sorted abs_desc ranked.
Proof.
  cbv zeta. split; [vm_compute; reflexivity|].
  intros H. inversion H as [|? ? H1 _]; subst.
  inversion H1 as [|? ? _ Hhd]; subst.
  inversion Hhd as [|? ? Hc]; subst.
  revert Hc. vm_compute. intros Hc. apply Hc. reflexivity.
Qed.



(** ** The repeated-character substitution *)

Lemma starts_with_run_run (c : ascii) (m n : nat) (r : string) :
  (m <= n)%nat -> starts_with_run m c (run c n ++ r) = true.
Proof.
  revert n; induction m as [|m IH]; intros n H; [reflexivity|].
  destruct n as [|n]; [lia|]. cbn [run]. rewrite PyFacts.app_cons.
  cbn. rewrite Ascii.eqb_refl. apply IH. lia.
Qed.

(** Inside a match on [c], the rest of the run goes as well. *)
Lemma strip_repeats_from_run (c : ascii) (n : nat) (r : string) :
  strip_repeats_from (Some c) (run c n ++ r) = strip_repeats_from (Some c) r.
Proof.
  induction n as [|n IH]; [reflexivity|].
  cbn [run]. rewrite PyFacts.app_cons. cbn [strip_repeats_from].
  now rewrite Ascii.eqb_refl.
Qed.

Lemma strip_repeats_from_other (c : ascii) (r : string) :
  starts_with c r = false ->
  strip_repeats_from (Some c) r = strip_repeats_from None r.
Proof. destruct r as [|d r]; [reflexivity|]. cbn. now intros ->. Qed.

(** The look-ahead from a text that does not end with [c] is blind to a
    continuation that starts with [c]. *)
Lemma starts_with_run_app (c d : ascii) (t Y : string) :
  ends_with c (String d t) = false ->
  forall m, starts_with_run m d (t ++ String c Y) = starts_with_run m d t.
Proof.
  revert d; induction t as [|e t IH]; intros d Hend m.
  - destruct m as [|m]; [reflexivity|].
    rewrite PyFacts.app_nil. cbn [starts_with_run ends_with] in *.
    rewrite Ascii.eqb_sym in Hend. now rewrite Hend.
  - destruct m as [|m]; [reflexivity|].
    rewrite PyFacts.app_cons. cbn [starts_with_run].
    destruct (Ascii.eqb_spec e d) as [->|Hne]; [|reflexivity].
    cbn [andb]. apply IH. exact Hend.
Qed.

Lemma ends_with_tail (c d : ascii) (t : string) :
  ends_with c (String d t) = false -> ends_with c t = false.
Proof. destruct t; [reflexivity | trivial]. Qed.

Lemma strip_repeats_from_app (c : ascii) (n : nat) (r : string) :
  is_word c = true -> (6 <= n)%nat -> starts_with c r = false ->
  forall (l : string) (skip : option ascii),
    ends_with c l = false ->
    (l = EmptyString -> skip <> Some c) ->
    strip_repeats_from skip (l ++ run c n ++ r)
    = (strip_repeats_from skip l ++ strip_repeats_from None r)%string.
Proof.
  intros Hw Hn Hr. induction l as [|d t IH]; intros skip Hend Hskip.
  - rewrite !PyFacts.app_nil. destruct n as [|n]; [lia|].
    cbn [run]. rewrite PyFacts.app_cons. cbn [strip_repeats_from].
    assert (Hs : match skip with Some d => Ascii.eqb c d | None => false end
                 = false).
    { destruct skip as [d|]; [|reflexivity].
      destruct (Ascii.eqb_spec c d) as [->|]; [|reflexivity].
      now specialize (Hskip eq_refl). }
    rewrite Hs, Hw, starts_with_run_run by lia. cbn [andb].
    rewrite strip_repeats_from_run. now apply strip_repeats_from_other.
  - pose proof (ends_with_tail _ _ _ Hend) as Ht.
    assert (Hdc : t = EmptyString -> d <> c).
    { intros -> ->. cbn in Hend. now rewrite Ascii.eqb_refl in Hend. }
    destruct n as [|n]; [lia|].
    rewrite PyFacts.app_cons. cbn [strip_repeats_from].
    cbn [run]. rewrite PyFacts.app_cons.
    rewrite (starts_with_run_app c d t _ Hend).
    change (String c (run c n ++ r)) with (run c (S n) ++ r)%string.
    destruct (match skip with Some d0 => Ascii.eqb d d0 | None => false end)
      eqn:E1.
    + apply IH; [exact Ht|]. intros Hte.
      destruct skip as [d0|]; [|discriminate].
      apply Ascii.eqb_eq in E1. subst d0. intros [= ->]. now apply Hdc.
    + destruct (is_word d && starts_with_run 5 d t).
      * apply IH; [exact Ht|]. intros Hte [= ->]. now apply Hdc.
      * rewrite PyFacts.app_cons. f_equal. apply IH; [exact Ht|discriminate].
Qed.

Lemma strip_repeats_from_non_word (s : string) :
  forall skip : option ascii,
    (forall d, skip = Some d -> is_word d = true) ->
    non_word (strip_repeats_from skip s) = non_word s.
Proof.
  induction s as [|c t IH]; intros skip Hskip; [reflexivity|].
  cbn [strip_repeats_from non_word].
  destruct (match skip with Some d => Ascii.eqb c d | None => false end) eqn:E1.
  - destruct skip as [d|]; [|discriminate].
    apply Ascii.eqb_eq in E1. subst d. rewrite (Hskip c eq_refl).
    now apply IH.
  - destruct (is_word c) eqn:Ew; cbn [andb].
    + destruct (starts_with_run 5 c t).
      * apply IH. now intros d [= <-].
      * cbn [non_word]. rewrite Ew. apply IH. discriminate.
    + cbn [non_word]. rewrite Ew. f_equal. apply IH. discriminate.
Qed.

(** What the substitution does delete: every run of six or more copies
    of one word character (a letter, a digit or the underscore), whole,
    while it handles what stands before and after the run as it would on
    their own; and no character outside [\w] is ever deleted. *)
Lemma strip_repeats_word_runs (c : ascii) (n : nat) (l r : string) :
  is_word c = true ->
  (6 <= n)%nat ->
  ends_with c l = false ->
  starts_with c r = false ->
  strip_repeats (l ++ run c n ++ r)
  = (strip_repeats l ++ strip_repeats r)%string
  /\ forall s, non_word (strip_repeats s) = non_word s.
Proof.
  intros Hw Hn Hl Hr. split.
  - unfold strip_repeats. apply strip_repeats_from_app; try assumption.
    discriminate.
  - intros s. apply strip_repeats_from_non_word. discriminate.
Qed.

Lemma strip_repeats_word_runs_witness :
  is_word "o" = true
  /\ (6 <= 7)%nat
  /\ ends_with "o" "so g" = false
  /\ starts_with "o" "d!!" = false
  /\ strip_repeats ("so g" ++ run "o" 7 ++ "d!!") = "so gd!!".
Proof.
  assert (H1 : is_word "o" = true) by reflexivity.
  assert (H2 : (6 <= 7)%nat) by lia.
  assert (H3 : ends_with "o" "so g" = false) by reflexivity.
  assert (H4 : starts_with "o" "d!!" = false) by reflexivity.
  repeat (split; [assumption|]).
  rewrite (proj1 (strip_repeats_word_runs "o" 7 "so g" "d!!" H1 H2 H3 H4)).
  reflexivity.
Defined.

(** C9 at failing inputs.  The comment of the line reads "Remove any
    single character repeated more than 5 times", but the pattern asks
    for a word character: six exclamation marks, or six blanks, go
    through the substitution untouched. *)
Theorem non_word_run_is_kept :
  strip_repeats "wow!!!!!!" = "wow!!!!!!"
  /\ strip_repeats "so      good" = "so      good"
  /\ is_word "!" = false.
Proof. vm_compute. repeat split; reflexivity. Qed.

(** ** The forward search *)

Lemma prefix_app (w b : string) : String.prefix w (w ++ b) = true.
Proof.
  induction w as [|c w IH]; [now destruct b|].
  rewrite PyFacts.app_cons. cbn [String.prefix].
  destruct (ascii_dec c c) as [_|n]; [exact IH | now elim n].
Qed.

Lemma prefix_split (w s : string) :
  String.prefix w s = true -> exists b, s = (w ++ b)%string.
Proof.
  revert s; induction w as [|c w IH]; intros s H.
  - exists s. reflexivity.
  - destruct s as [|d s]; [discriminate|]. cbn [String.prefix] in H.
    destruct (ascii_dec c d) as [->|]; [|discriminate].
    destruct (IH s H) as [b ->]. exists b. reflexivity.
Qed.

Lemma find_aux_sound (w s : string) :
  forall (skip pos p : nat),
    Py.find_aux w s skip pos = Some p ->
    exists a b : string,
      s = (a ++ w ++ b)%string /\ p = (pos + String.length a)%nat
      /\ (skip <= String.length a)%nat.
Proof.
  induction s as [|c s IH]; intros skip pos p.
  - destruct skip; cbn [Py.find_aux]; [|discriminate].
    destruct (String.prefix w "") eqn:E; [|discriminate].
    intros [= <-]. apply prefix_split in E as [b E].
    exists "", b. rewrite PyFacts.app_nil. cbn. split; [exact E|]. split; lia.
  - destruct skip as [|skip]; cbn [Py.find_aux].
    + destruct (String.prefix w (String c s)) eqn:E.
      * intros [= <-]. apply prefix_split in E as [b E].
        exists "", b. rewrite PyFacts.app_nil. cbn. split; [exact E|]. split; lia.
      * intros H. apply IH in H as (a & b & -> & -> & _).
        exists (String c a), b. rewrite PyFacts.app_cons. cbn.
        split; [reflexivity|]. split; lia.
    + intros H. apply IH in H as (a & b & -> & -> & Hs).
      exists (String c a), b. rewrite PyFacts.app_cons. cbn.
      split; [reflexivity|]. split; lia.
Qed.

Lemma find_aux_complete (w b : string) :
  forall (a : string) (skip pos : nat),
    (skip <= String.length a)%nat ->
    exists p, Py.find_aux w (a ++ w ++ b) skip pos = Some p
              /\ (pos + skip <= p <= pos + String.length a)%nat.
Proof.
  induction a as [|c a IH]; intros skip pos Hs.
  - cbn in Hs. assert (skip = 0%nat) as -> by lia.
    rewrite PyFacts.app_nil. exists pos.
    split; [|cbn; lia].
    destruct (w ++ b)%string eqn:E; cbn [Py.find_aux];
      rewrite <- E, prefix_app; reflexivity.
  - rewrite PyFacts.app_cons. destruct skip as [|skip]; cbn [Py.find_aux].
    + destruct (String.prefix w (String c (a ++ w ++ b))).
      * exists pos. split; [reflexivity | cbn; lia].
      * destruct (IH 0%nat (S pos) ltac:(lia)) as (p & Hp & Hb).
        exists p. split; [exact Hp | cbn; lia].
    + destruct (IH skip (S pos) ltac:(cbn in Hs; lia)) as (p & Hp & Hb).
      exists p. split; [exact Hp | cbn; lia].
Qed.

Lemma take_zero (s : string) : Py.take 0 s = EmptyString.
Proof. now destruct s. Qed.

Lemma str_app_nil_r (s : string) : (s ++ "")%string = s.
Proof.
  induction s as [|c s IH]; [reflexivity|].
  rewrite PyFacts.app_cons. now rewrite IH.
Qed.

Lemma slice_middle (a w b : string) :
  slice (a ++ w ++ b) (Z.of_nat (String.length a))
        (Z.of_nat (String.length a) + Py.len w) = w.
Proof.
  unfold slice, Py.len. rewrite !PyFacts.bound_nonneg by lia.
  rewrite PyFacts.drop_app_ge by lia.
  replace (Z.to_nat (Z.of_nat (String.length a)) - String.length a)%nat
    with 0%nat by lia.
  replace (Py.drop 0 (w ++ b)) with (w ++ b)%string by now destruct (w ++ b)%string.
  rewrite PyFacts.take_app_ge by lia.
  replace (Z.to_nat (Z.of_nat (String.length a) + Z.of_nat (String.length w))
           - Z.to_nat (Z.of_nat (String.length a)) - String.length w)%nat
    with 0%nat by lia.
  rewrite take_zero. apply str_app_nil_r.
Qed.

(** Whatever the start, an answer other than [-1] is a place of the word. *)
Lemma find_found (s w : string) (start : Z) :
  Py.find s w start <> -1 ->
  0 <= Py.find s w start
  /\ Py.find s w start + Py.len w <= Py.len s
  /\ slice s (Py.find s w start) (Py.find s w start + Py.len w) = w.
Proof.
  unfold Py.find.
  destruct (Py.find_aux w s (Py.bound s start) 0) as [p|] eqn:E; [|congruence].
  intros _. apply find_aux_sound in E as (a & b & -> & -> & Hskip).
  cbn [Nat.add].
  split; [lia|]. split.
  - unfold Py.len. rewrite !PyFacts.length_app. lia.
  - apply slice_middle.
Qed.

Lemma find_between (a w b : string) (start : Z) :
  0 <= start <= Z.of_nat (String.length a) ->
  start <= Py.find (a ++ w ++ b) w start <= Z.of_nat (String.length a).
Proof.
  intros Hs. unfold Py.find. rewrite PyFacts.bound_nonneg by lia.
  destruct (find_aux_complete w b a (Z.to_nat start) 0 ltac:(lia))
    as (p & -> & Hp).
  lia.
Qed.

(** X1. A search that does not answer [-1] answers an index at or after
    the start, with the whole word inside the text, and the text read at
    that index is the word. *)
Theorem find_sound (s w : string) (start : Z) :
  0 <= start ->
  Py.find s w start <> -1 ->
  start <= Py.find s w start
  /\ Py.find s w start + Py.len w <= Py.len s
  /\ slice s (Py.find s w start) (Py.find s w start + Py.len w) = w.
Proof.
  intros Hs Hf. split; [now apply PyFacts.find_ge|].
  now apply find_found.
Qed.

Lemma find_sound_witness :
  0 <= 4
  /\ Py.find "bad, bad film" "bad" 4 <> -1
  /\ slice "bad, bad film" (Py.find "bad, bad film" "bad" 4)
           (Py.find "bad, bad film" "bad" 4 + Py.len "bad") = "bad".
Proof.
  assert (H0 : 0 <= 4) by lia.
  assert (H1 : Py.find "bad, bad film" "bad" 4 <> -1) by (vm_compute; discriminate).
  split; [exact H0|]. split; [exact H1|].
  exact (proj2 (proj2 (find_sound "bad, bad film" "bad" 4 H0 H1))).
Defined.

(** X2. The search misses nothing and answers the leftmost place: when
    the word stands in the text at an index at or after the start, the
    answer lies between the start and that index, so it is not [-1]. *)
Theorem find_complete (a w b : string) (start : Z) :
  0 <= start <= Z.of_nat (String.length a) ->
  start <= Py.find (a ++ w ++ b) w start <= Z.of_nat (String.length a).
Proof. apply find_between. Qed.

Lemma find_complete_witness :
  0 <= 4 <= Z.of_nat (String.length "so bad, ")
  /\ 4 <= Py.find ("so bad, " ++ "bad" ++ " film") "bad" 4
       <= Z.of_nat (String.length "so bad, ").
Proof.
  assert (H : 0 <= 4 <= Z.of_nat (String.length "so bad, ")) by (cbn; lia).
  split; [exact H|].
  exact (find_complete "so bad, " "bad" " film" 4 H).
Defined.

(** ** Offsets of the tokens *)

Lemma word_positions_from_words (text : string) (words : list string) :
  forall cur, map (fun wp : position => wp.1.1) (word_positions_from text cur words)
              = words.
Proof. induction words as [|w rest IH]; intros cur; cbn; [reflexivity|]. now rewrite IH. Qed.

Lemma word_positions_from_spec (text : string) (words : list string) :
  forall cur w st en,
    (w, st, en) ∈ word_positions_from text cur words ->
    w ∈ words
    /\ en = st + Py.len w
    /\ (st = -1 \/ (0 <= st /\ en <= Py.len text /\ slice text st en = w)).
Proof.
  induction words as [|word rest IH]; intros cur w st en Hin; cbn in Hin.
  - now apply elem_of_nil in Hin.
  - apply elem_of_cons in Hin as [[= -> -> ->]|Hin].
    + split; [left|]. split; [reflexivity|].
      destruct (Z.eq_dec (Py.find text word cur) (-1)) as [E|E]; [now left|].
      right. now apply find_found.
    + apply IH in Hin as (Hw & He & Hs). split; [now right|]. now split.
Qed.

(** X3. Offset reconstruction keeps the tokens, in order, one entry each;
    an entry's end is its start plus the token's length, and unless the
    start is [-1] the raw text read between start and end is the token. *)
Theorem word_positions_round_trip (input_text : string)
    (original_words : list string) :
  map (fun wp : position => wp.1.1) (word_positions input_text original_words)
  = original_words
  /\ forall w st en,
       (w, st, en) ∈ word_positions input_text original_words ->
       en = st + Py.len w
       /\ (st = -1
           \/ (0 <= st /\ en <= Py.len input_text
               /\ slice input_text st en = w)).
Proof.
  split; [apply word_positions_from_words|].
  intros w st en Hin. now apply word_positions_from_spec in Hin as (_ & ? & ?).
Qed.

Lemma all_found_in_order (words : list string) :
  forall (pre s : string) (cur : Z),
    0 <= cur <= Z.of_nat (String.length pre) ->
    in_order s words ->
    Forall (fun wp : position => wp.1.2 <> -1)
           (word_positions_from (pre ++ s) cur words).
Proof.
  induction words as [|w rest IH]; intros pre s cur Hcur Hord; cbn; [constructor|].
  destruct Hord as (gap & tail & -> & Hord).
  assert (Etext : (pre ++ gap ++ w ++ tail)%string
                  = ((pre ++ gap) ++ w ++ tail)%string)
    by now rewrite str_app_assoc.
  pose proof (find_between (pre ++ gap) w tail cur) as Hf.
  rewrite PyFacts.length_app in Hf. specialize (Hf ltac:(lia)).
  rewrite <- Etext in Hf.
  constructor; [cbn; lia|].
  replace (pre ++ gap ++ w ++ tail)%string
    with ((pre ++ gap ++ w) ++ tail)%string by now rewrite !str_app_assoc.
  apply IH; [|exact Hord].
  replace ((pre ++ gap ++ w) ++ tail)%string
    with (pre ++ gap ++ w ++ tail)%string by now rewrite !str_app_assoc.
  unfold Py.len. rewrite !PyFacts.length_app. lia.
Qed.

(** X4. When the tokens stand in the raw text in their order (a tokenizer
    that only cuts the text), the forward search finds every one of them,
    and the spans handed to the renderer are pairwise clear of each
    other. *)
Theorem tokens_in_order_all_found (input_text : string)
    (original_words : list string) (df top : frame)
    (word_mapping : list (string * string)) :
  in_order input_text original_words ->
  Forall (fun wp : position => wp.1.2 <> -1)
         (word_positions input_text original_words)
  /\ StronglySorted clear_of
       (sd_ents (generate_spacy_visualization input_text original_words df top
                   word_mapping)).
Proof.
  intros Hord.
  assert (Hall : Forall (fun wp : position => wp.1.2 <> -1)
                   (word_positions input_text original_words)).
  { unfold word_positions.
    apply (all_found_in_order original_words "" input_text 0); [cbn; lia|exact Hord]. }
  split; [exact Hall|]. now apply spans_clear_when_all_found.
Qed.

Lemma tokens_in_order_all_found_witness :
  in_order "Totally lit, best film" ["Totally"; "lit"; ","; "best"; "film"]
  /\ Forall (fun wp : position => wp.1.2 <> -1)
       (word_positions "Totally lit, best film"
          ["Totally"; "lit"; ","; "best"; "film"]).
Proof.
  assert (H : in_order "Totally lit, best film"
                ["Totally"; "lit"; ","; "best"; "film"]).
  { exists "", " lit, best film". split; [reflexivity|].
    exists " ", ", best film". split; [reflexivity|].
    exists "", " best film". split; [reflexivity|].
    exists " ", " film". split; [reflexivity|].
    exists " ", "". split; [reflexivity|]. exact I. }
  split; [exact H|].
  exact (proj1 (tokens_in_order_all_found _ _ [] [] [] H)).
Defined.

(** ** What the renderer receives *)

Lemma entities_round_trip (rm : gmap string string) (df : frame)
    (text : string) (words : list string) (e : entity) :
  e ∈ entities rm df (word_positions text words) ->
  exists w,
    w ∈ words /\ is_Some (rm !! w)
    /\ ent_end e = ent_start e + Py.len w
    /\ (ent_start e <> -1 ->
        0 <= ent_start e /\ ent_end e <= Py.len text
        /\ slice text (ent_start e) (ent_end e) = w).
Proof.
  intros He. apply elem_of_entities in He
    as (w & st & en & p & v & Hin & Hrm & _ & _ & ->).
  apply word_positions_from_spec in Hin as (Hw & Hen & Hs).
  exists w. cbn. split; [exact Hw|]. split; [now exists p|].
  split; [exact Hen|]. intros Hne. destruct Hs as [?|?]; [contradiction|assumption].
Qed.

(** X5. Every span resolved on the raw text belongs to a token that is a
    key of the reverse map, and unless its start is [-1] the raw text read
    between its start and end is that token. *)
Theorem resolved_span_reads_its_token (input_text : string)
    (original_words : list string) (df : frame)
    (word_mapping : list (string * string)) (e : entity) :
  e ∈ entities (reverse_mapping word_mapping) df
        (word_positions input_text original_words) ->
  exists w,
    w ∈ original_words
    /\ is_Some (reverse_mapping word_mapping !! w)
    /\ ent_end e = ent_start e + Py.len w
    /\ (ent_start e <> -1 ->
        0 <= ent_start e /\ ent_end e <= Py.len input_text
        /\ slice input_text (ent_start e) (ent_end e) = w).
Proof. apply entities_round_trip. Qed.

Lemma resolved_span_reads_its_token_witness :
  let e := Entity 8 11 (make_label (1 # 2)%Q) in
  e ∈ entities (reverse_mapping [("lit", "great")]) [("great", 1 # 2)%Q]
        (word_positions "Totally lit, best film"
           ["Totally"; "lit"; ","; "best"; "film"])
  /\ exists w, w ∈ ["Totally"; "lit"; ","; "best"; "film"]
               /\ slice "Totally lit, best film" 8 11 = w.
Proof.
  intros e.
  assert (H : e ∈ entities (reverse_mapping [("lit", "great")])
                [("great", 1 # 2)%Q]
                (word_positions "Totally lit, best film"
                   ["Totally"; "lit"; ","; "best"; "film"]))
    by (vm_compute; left).
  split; [exact H|].
  destruct (resolved_span_reads_its_token _ _ _ _ _ H) as (w & Hw & _ & _ & Hs).
  exists w. split; [exact Hw|]. apply Hs. cbn. discriminate.
Defined.

Lemma add_underscores_count_pairs (ents : list entity) :
  forall (mt : string) (off : Z),
    (add_underscores ents mt off).2
    = off + Z.of_nat (List.length (insertion_points ents)).
Proof.
  induction ents as [|e rest IH]; intros mt off; [cbn; lia|].
  destruct rest as [|e' rest']; [cbn; lia|].
  rewrite add_underscores_step, insertion_points_step.
  replace (ent_end e + off + 1 =? ent_start e' + off)
    with (ent_end e + 1 =? ent_start e')
    by (destruct (Z.eqb_spec (ent_end e + 1) (ent_start e'));
        destruct (Z.eqb_spec (ent_end e + off + 1) (ent_start e' + off)); lia).
  destruct (ent_end e + 1 =? ent_start e'); rewrite IH; cbn [List.length]; lia.
Qed.

Lemma add_underscores_length (ents : list entity) :
  forall (mt : string) (off : Z),
    Py.len (add_underscores ents mt off).1
    = Py.len mt + ((add_underscores ents mt off).2 - off).
Proof.
  induction ents as [|e rest IH]; intros mt off; [cbn; lia|].
  destruct rest as [|e' rest']; [cbn; lia|].
  rewrite add_underscores_step.
  destruct (ent_end e + off + 1 =? ent_start e' + off); [|apply IH].
  rewrite IH. unfold Py.len, Py.slice_to, Py.slice_from.
  rewrite !PyFacts.length_app, PyFacts.length_take, PyFacts.length_drop.
  cbn [String.length]. lia.
Qed.

Lemma without_underscores_app (a b : string) :
  without_underscores (a ++ b)
  = (without_underscores a ++ without_underscores b)%string.
Proof.
  induction a as [|c a IH]; [reflexivity|].
  rewrite PyFacts.app_cons. cbn [without_underscores].
  destruct (Ascii.eqb c "_"); [exact IH|].
  rewrite PyFacts.app_cons. now rewrite IH.
Qed.

Lemma add_underscores_content (ents : list entity) :
  forall (mt : string) (off : Z),
    without_underscores (add_underscores ents mt off).1 = without_underscores mt.
Proof.
  induction ents as [|e rest IH]; intros mt off; [reflexivity|].
  destruct rest as [|e' rest']; [reflexivity|].
  rewrite add_underscores_step.
  destruct (ent_end e + off + 1 =? ent_start e' + off); [|apply IH].
  rewrite IH. unfold Py.slice_to, Py.slice_from.
  rewrite without_underscores_app, PyFacts.app_cons, PyFacts.app_nil.
  change (without_underscores (String "_" ?t)) with (without_underscores t).
  rewrite <- without_underscores_app. now rewrite PyFacts.take_drop.
Qed.

(** X6. The text handed to the renderer is the review with underscores
    put in and nothing else touched: without their underscores the two
    texts are the same, whatever the span offsets are, and the text grows
    by one character for each pair of consecutive spans that are one
    character apart. *)
Theorem rendered_text_only_gains_underscores (input_text : string)
    (original_words : list string) (df top : frame)
    (word_mapping : list (string * string)) :
  let out := generate_spacy_visualization input_text original_words df top
               word_mapping in
  let ents := entities (reverse_mapping word_mapping) df
                (word_positions input_text original_words) in
  without_underscores (sd_text out) = without_underscores input_text
  /\ Py.len (sd_text out)
     = Py.len input_text + Z.of_nat (List.length (insertion_points ents))
  /\ List.length (sd_ents out) = List.length ents.
Proof.
  cbn zeta. cbn [generate_spacy_visualization sd_text sd_ents].
  split; [apply add_underscores_content|]. split.
  - rewrite add_underscores_length, add_underscores_count_pairs. lia.
  - apply length_map.
Qed.

Lemma count_take_le (c : ascii) (n : nat) (s : string) :
  (Py.count c (Py.take n s) <= Py.count c s)%nat.
Proof.
  rewrite <- (PyFacts.take_drop n s) at 2. rewrite PyFacts.count_app. lia.
Qed.

Lemma adjust_no_underscore (mt : string) (e : entity) :
  Py.count "_" mt = 0%nat -> adjust mt e = e.
Proof.
  intros H. unfold adjust, underscores_before, Py.slice_to.
  pose proof (count_take_le "_" (Py.bound mt (ent_start e)) mt).
  pose proof (count_take_le "_" (Py.bound mt (ent_end e)) mt).
  destruct e as [st en l]; cbn in *. f_equal; lia.
Qed.

Lemma add_underscores_no_pairs (ents : list entity) (mt : string) (off : Z) :
  insertion_points ents = [] -> add_underscores ents mt off = (mt, off).
Proof.
  intros H.
  pose proof (add_underscores_count_pairs ents mt off) as Hc.
  rewrite H in Hc. cbn in Hc.
  pose proof (add_underscores_offset ents mt off) as [_ Hs].
  destruct (add_underscores ents mt off) as [t o]; cbn in *.
  replace o with off by lia. f_equal. apply Hs. lia.
Qed.

(** X7. A review without underscores in which no two consecutive spans
    are exactly one character apart goes to the renderer as it is: the
    text is the raw text and the spans keep their raw offsets. *)
Theorem plain_review_passes_through (input_text : string)
    (original_words : list string) (df top : frame)
    (word_mapping : list (string * string)) :
  let ents := entities (reverse_mapping word_mapping) df
                (word_positions input_text original_words) in
  Py.count "_" input_text = 0%nat ->
  insertion_points ents = [] ->
  generate_spacy_visualization input_text original_words df top word_mapping
  = SpacyData input_text ents (color_labels df top).
Proof.
  intros ents Hu Hp. unfold generate_spacy_visualization. fold ents.
  rewrite add_underscores_no_pairs by exact Hp. cbn [fst].
  f_equal. rewrite <- (map_id ents) at 2.
  apply map_ext. intros e. now apply adjust_no_underscore.
Qed.

Lemma plain_review_passes_through_witness :
  let text := "Totally lit, best film" in
  let words := ["Totally"; "lit"; ","; "best"; "film"] in
  let df := [("great", 1 # 2); ("total", 3 # 10)]%Q in
  let wm := [("lit", "great"); ("totally", "total")] in
  Py.count "_" text = 0%nat
  /\ insertion_points (entities (reverse_mapping wm) df (word_positions text words))
     = []
  /\ sd_text (generate_spacy_visualization text words df df wm) = text.
Proof.
  intros text words df wm.
  assert (H1 : Py.count "_" text = 0%nat) by reflexivity.
  assert (H2 : insertion_points
                 (entities (reverse_mapping wm) df (word_positions text words))
               = []) by (vm_compute; reflexivity).
  split; [exact H1|]. split; [exact H2|].
  rewrite (plain_review_passes_through text words df df wm H1 H2).
  reflexivity.
Defined.

(** ** More on the reverse map *)

Lemma reverse_mapping_lookup_Some (wm : list (string * string)) (w p : string) :
  reverse_mapping wm !! w = Some p -> (w, p) ∈ wm.
Proof.
  induction wm as [|[o q] wm IH] using rev_ind.
  - cbn. rewrite lookup_empty. discriminate.
  - rewrite reverse_mapping_snoc, lookup_insert.
    destruct (decide (o = w)) as [->|Hne].
    + intros [= ->]. apply elem_of_app. right. left.
    + intros H. apply elem_of_app. left. now apply IH.
Qed.

Lemma reverse_mapping_lookup_None (wm : list (string * string)) (w : string) :
  reverse_mapping wm !! w = None <-> w ∉ map fst wm.
Proof.
  induction wm as [|[o q] wm IH] using rev_ind.
  - cbn. rewrite lookup_empty. split; [intros _; apply not_elem_of_nil | reflexivity].
  - rewrite reverse_mapping_snoc, lookup_insert, map_app, elem_of_app. cbn.
    rewrite list_elem_of_singleton.
    destruct (decide (o = w)) as [->|Hne].
    + split; [discriminate | intros H; exfalso; apply H; now right].
    + rewrite IH. split; [intros H [?|?]; [contradiction|congruence] | tauto].
Qed.

Lemma NoDup_fst_functional {A B : Type} (l : list (A * B)) (x : A) (y1 y2 : B) :
  NoDup (map fst l) -> (x, y1) ∈ l -> (x, y2) ∈ l -> y1 = y2.
Proof.
  induction l as [|[a b] l IH]; intros Hnd H1 H2; [now apply elem_of_nil in H1|].
  cbn in Hnd. apply NoDup_cons in Hnd as [Ha Hnd].
  assert (Hfst : forall y, (a, y) ∈ l -> False).
  { intros y Hy. apply Ha. apply list_elem_of_In, in_map_iff.
    exists (a, y). split; [reflexivity | now apply list_elem_of_In]. }
  apply elem_of_cons in H1 as [E1|H1]; apply elem_of_cons in H2 as [E2|H2].
  - congruence.
  - injection E1 as -> ->. exfalso. eauto.
  - injection E2 as -> ->. exfalso. eauto.
  - now apply IH.
Qed.

Lemma reverse_mapping_lookup_NoDup (wm : list (string * string)) (w p : string) :
  NoDup (map fst wm) ->
  (reverse_mapping wm !! w = Some p <-> (w, p) ∈ wm).
Proof.
  intros Hnd. split; [apply reverse_mapping_lookup_Some|].
  intros Hin.
  destruct (reverse_mapping wm !! w) as [q|] eqn:E.
  - apply reverse_mapping_lookup_Some in E.
    f_equal. exact (NoDup_fst_functional wm w q p Hnd E Hin).
  - apply reverse_mapping_lookup_None in E. exfalso. apply E.
    apply list_elem_of_In, in_map_iff. exists (w, p). split; [reflexivity|].
    now apply list_elem_of_In.
Qed.

(** X8. When no token has two different records, the reverse map does not
    depend on the order of the log (which [list(set(..))] leaves to the
    hash order): a lookup answers [p] for [w] exactly when [(w, p)] is a
    record, and two logs with the same records give the same map. *)
Theorem reverse_mapping_order_free (wm wm' : list (string * string)) :
  NoDup (map fst wm) ->
  wm ≡ₚ wm' ->
  reverse_mapping wm = reverse_mapping wm'
  /\ forall w p, reverse_mapping wm !! w = Some p <-> (w, p) ∈ wm.
Proof.
  intros Hnd Hperm. split; [|intros w p; now apply reverse_mapping_lookup_NoDup].
  assert (Hnd' : NoDup (map fst wm')).
  { pose proof (Permutation_map fst Hperm) as Hp. now rewrite <- Hp. }
  apply map_eq. intros w. apply option_eq. intros p.
  rewrite !reverse_mapping_lookup_NoDup by assumption.
  now rewrite Hperm.
Qed.

Lemma reverse_mapping_order_free_witness :
  let wm := [("lit", "great"); ("amazing", "amaz")] in
  let wm' := [("amazing", "amaz"); ("lit", "great")] in
  NoDup (map fst wm) /\ wm ≡ₚ wm'
  /\ reverse_mapping wm = reverse_mapping wm'.
Proof.
  intros wm wm'.
  assert (H1 : NoDup (map fst wm))
    by (apply (bool_decide_unpack _); vm_compute; reflexivity).
  assert (H2 : wm ≡ₚ wm') by apply perm_swap.
  split; [exact H1|]. split; [exact H2|].
  exact (proj1 (reverse_mapping_order_free wm wm' H1 H2)).
Defined.

(** ** More on the selector *)

Lemma elem_of_processed_words (wm : list (string * string)) (x : string) :
  x ∈ processed_words wm <-> x ∈ map snd wm.
Proof. unfold processed_words. apply elem_of_list_to_set. Qed.

Lemma elem_of_qualifying (df : frame) (wm : list (string * string))
    (r : string * Q) :
  r ∈ qualifying df wm <->
  r ∈ df /\ r.1 ∈ map snd wm /\ (threshold <= Qabs r.2)%Q.
Proof.
  unfold qualifying, loc_significant, loc_isin. split.
  - intros H. apply list_elem_of_In, filter_In in H as [H Hs].
    apply filter_In in H as [H Hl].
    apply bool_decide_eq_true, elem_of_processed_words in Hl.
    apply Qle_bool_iff in Hs. split; [now apply list_elem_of_In|]. now split.
  - intros (Hdf & Hl & Hs). apply list_elem_of_In, filter_In. split.
    + apply filter_In. split; [now apply list_elem_of_In|].
      now apply bool_decide_eq_true, elem_of_processed_words.
    + now apply Qle_bool_iff.
Qed.

(** X9. Every feature the selector returns is a row of the importance
    table and the "after" of some record of the log: the chart is drawn
    only from forms that normalisation produced for this review. *)
Theorem selected_from_log_and_table (df : frame)
    (word_mapping : list (string * string)) (top_n : Z) (r : string * Q) :
  r ∈ (compute_shap_values df word_mapping top_n).1.2 ->
  r ∈ df /\ exists before, (before, r.1) ∈ word_mapping.
Proof.
  intros Hr. apply ranked_qualifying, elem_of_qualifying in Hr as (Hdf & Hlog & _).
  split; [exact Hdf|].
  apply list_elem_of_In, in_map_iff in Hlog as ([b a] & Ha & Hin).
  cbn in Ha. subst a. exists b. now apply list_elem_of_In.
Qed.

Lemma selected_from_log_and_table_witness :
  let df := [("amaz", 1 # 2); ("plot", 3 # 4); ("great", 1 # 10)]%Q in
  let wm := [("amazing", "amaz"); ("lit", "great")] in
  ("amaz", (1 # 2)%Q) ∈ (compute_shap_values df wm 5).1.2
  /\ exists before, (before, "amaz") ∈ wm.
Proof.
  intros df wm.
  assert (H : ("amaz", (1 # 2)%Q) ∈ (compute_shap_values df wm 5).1.2)
    by (vm_compute; right; left).
  split; [exact H|].
  exact (proj2 (selected_from_log_and_table df wm 5 _ H)).
Defined.

(** X10. The selector looks at the log only through the set of its
    "after" forms: two logs with the same set of "after" forms, in any
    order and with any repetition, give the same three results. *)
Theorem selector_depends_on_after_set (df : frame)
    (wm wm' : list (string * string)) (top_n : Z) :
  (forall x, x ∈ map snd wm <-> x ∈ map snd wm') ->
  compute_shap_values df wm top_n = compute_shap_values df wm' top_n.
Proof.
  intros H. unfold compute_shap_values.
  assert (E : processed_words wm = processed_words wm').
  { apply set_eq. intros x. now rewrite !elem_of_processed_words. }
  now rewrite E.
Qed.

Lemma selector_depends_on_after_set_witness :
  let df := [("amaz", 1 # 2); ("great", 1 # 10)]%Q in
  let wm := [("amazing", "amaz"); ("lit", "great")] in
  let wm' := [("gr8", "great"); ("lit", "great"); ("amazing", "amaz")] in
  (forall x, x ∈ map snd wm <-> x ∈ map snd wm')
  /\ compute_shap_values df wm 5 = compute_shap_values df wm' 5.
Proof.
  intros df wm wm'.
  assert (H : forall x, x ∈ map snd wm <-> x ∈ map snd wm').
  { intros x. cbn. rewrite !elem_of_cons. tauto. }
  split; [exact H|].
  exact (selector_depends_on_after_set df wm wm' 5 H).
Defined.

Lemma qualifying_nil (df : frame) (wm : list (string * string)) :
  (forall r, r ∈ df -> r.1 ∉ map snd wm) -> qualifying df wm = [].
Proof.
  intros H. destruct (qualifying df wm) as [|r l] eqn:E; [reflexivity|].
  assert (Hr : r ∈ qualifying df wm) by (rewrite E; left).
  apply elem_of_qualifying in Hr as (Hdf & Hlog & _).
  now apply H in Hdf.
Qed.

(** X11. When no feature of the table is the "after" of a record (an
    empty log for instance: a review in which normalisation changed no
    token), the selector returns no row and reports the count [0],
    whatever the scores and whatever [top_n]. *)
Theorem nothing_selected_without_log_feature (df : frame)
    (word_mapping : list (string * string)) (top_n : Z) :
  (forall r, r ∈ df -> r.1 ∉ map snd word_mapping) ->
  compute_shap_values df word_mapping top_n = (df, [], 0).
Proof.
  intros H. unfold compute_shap_values.
  fold (qualifying df word_mapping). rewrite (qualifying_nil _ _ H).
  unfold nlargest_abs_index. cbn. now rewrite take_nil.
Qed.

Lemma nothing_selected_without_log_feature_witness :
  let df := [("best", 3 # 10); ("film", 1 # 2)]%Q in
  (forall r, r ∈ df -> r.1 ∉ map snd ([] : list (string * string)))
  /\ compute_shap_values df [] 10 = (df, [], 0).
Proof.
  intros df.
  assert (H : forall r, r ∈ df -> r.1 ∉ map snd ([] : list (string * string)))
    by (intros r _; apply not_elem_of_nil).
  split; [exact H|].
  exact (nothing_selected_without_log_feature df [] 10 H).
Defined.

Lemma entities_nil (rm : gmap string string) (df : frame) (wps : list position) :
  (forall wp : position, wp ∈ wps -> rm !! wp.1.1 = None) ->
  entities rm df wps = [].
Proof.
  intros H. destruct (entities rm df wps) as [|e l] eqn:E; [reflexivity|].
  assert (He : e ∈ entities rm df wps) by (rewrite E; left).
  apply elem_of_entities in He as (w & st & en & p & v & Hin & Hrm & _).
  apply H in Hin. cbn in Hin. congruence.
Qed.

(** X12. When no token of the raw text is the "before" of a record, the
    renderer gets the raw text untouched and no span at all, whatever the
    scores are. *)
Theorem nothing_highlighted_without_log_token (input_text : string)
    (original_words : list string) (df top : frame)
    (word_mapping : list (string * string)) :
  (forall w, w ∈ original_words -> w ∉ map fst word_mapping) ->
  generate_spacy_visualization input_text original_words df top word_mapping
  = SpacyData input_text [] (color_labels df top).
Proof.
  intros H. unfold generate_spacy_visualization.
  rewrite entities_nil; [reflexivity|].
  intros [[w st] en] Hin. cbn.
  apply reverse_mapping_lookup_None, H.
  now apply word_positions_from_spec in Hin as (Hw & _).
Qed.

Lemma nothing_highlighted_without_log_token_witness :
  (forall w, w ∈ ["best"; "film"] -> w ∉ map fst [("amazing", "amaz")])
  /\ sd_ents (generate_spacy_visualization "best film" ["best"; "film"]
                [("film", 1 # 2)]%Q [] [("amazing", "amaz")]) = [].
Proof.
  assert (H : forall w, w ∈ ["best"; "film"] -> w ∉ map fst [("amazing", "amaz")]).
  { intros w Hw Hin. cbn in Hin. apply list_elem_of_singleton in Hin. subst w.
    apply elem_of_cons in Hw as [Hw|Hw]; [discriminate|].
    apply list_elem_of_singleton in Hw. discriminate. }
  split; [exact H|].
  now rewrite (nothing_highlighted_without_log_token "best film" _ _ [] _ H).
Defined.

(** ** The transform log *)

Section TrackingFacts.

Variable slang_dict : gmap string (gmap string string).
Variable stopwords : list string.
Variable stem : string -> string.

Lemma translate_slang_tokens (tokens : list string) :
  (translate_slang slang_dict tokens).1 = map (slang_get slang_dict) tokens.
Proof.
  induction tokens as [|w rest IH]; [reflexivity|]. cbn [translate_slang].
  destruct (translate_slang slang_dict rest) as [mt wm]. cbn in *. now rewrite IH.
Qed.

(** Either no token names a column, every token is lower-cased and the
    first loop records nothing; or some token does and the lower-casing
    raises. *)
Lemma lower_or_raise (tokens : list string) :
  (Forall (fun w => slang_dict !! w = None) tokens
   /\ mapM lower_of (map (slang_get slang_dict) tokens) = Some (map lower tokens)
   /\ (translate_slang slang_dict tokens).2 = [])
  \/ (Exists (fun w => is_Some (slang_dict !! w)) tokens
      /\ mapM lower_of (map (slang_get slang_dict) tokens) = None).
Proof.
  induction tokens as [|w rest IH]; [left; repeat split; constructor|].
  cbn [map translate_slang].
  destruct (slang_dict !! w) as [col|] eqn:E.
  - right. split; [left; now rewrite E|].
    unfold slang_get at 1. rewrite E. reflexivity.
  - assert (Eg : slang_get slang_dict w = Word w)
      by (unfold slang_get; now rewrite E).
    rewrite Eg.
    destruct IH as [(Hall & Hm & Hp)|(Hex & Hm)].
    + left. split; [now constructor|]. split.
      * cbn. rewrite Hm. reflexivity.
      * destruct (translate_slang slang_dict rest) as [mt wm]. cbn in *.
        now rewrite String.eqb_refl.
    + right. split; [now right|]. cbn. now rewrite Hm.
Qed.

Lemma stem_all_tokens (tokens_lower : list string) :
  (stem_all stem tokens_lower).1 = map stem tokens_lower.
Proof.
  induction tokens_lower as [|w rest IH]; [reflexivity|]. cbn [stem_all].
  destruct (stem_all stem rest) as [st wm]. cbn in *. now rewrite IH.
Qed.

Lemma stem_all_pairs (tokens_lower : list string) (a b : string) :
  (a, b) ∈ (stem_all stem tokens_lower).2 <->
  a ∈ tokens_lower /\ b = stem a /\ a <> b.
Proof.
  induction tokens_lower as [|w rest IH]; cbn [stem_all].
  - cbn. rewrite !elem_of_nil. tauto.
  - destruct (stem_all stem rest) as [st wm]. cbn [snd] in *.
    destruct (String.eqb_spec w (stem w)) as [E|E].
    + rewrite IH, elem_of_cons. split.
      * intros (H1 & H2 & H3). split; [now right|]. now split.
      * intros ([->|H1] & H2 & H3); [congruence|]. now repeat split.
    + rewrite !elem_of_cons, IH. split.
      * intros [[= -> ->]|(H1 & H2 & H3)]; [now repeat split; [left|..] |].
        split; [now right|]. now split.
      * intros ([->|H1] & H2 & H3); [left; now subst | right; now repeat split].
Qed.

Lemma elem_of_kept_tokens (tokens : list string) (a : string) :
  a ∈ kept_tokens stopwords tokens <->
  (a ∉ stopwords) /\ exists w, w ∈ tokens /\ a = lower w.
Proof.
  unfold kept_tokens. split.
  - intros H. apply list_elem_of_In, filter_In in H as [H Hs].
    apply negb_true_iff, bool_decide_eq_false in Hs. split; [exact Hs|].
    apply in_map_iff in H as (w & <- & Hw). exists w.
    split; [now apply list_elem_of_In | reflexivity].
  - intros (Hs & w & Hw & ->). apply list_elem_of_In, filter_In. split.
    + apply in_map_iff. exists w. split; [reflexivity | now apply list_elem_of_In].
    + now apply negb_true_iff, bool_decide_eq_false.
Qed.

Lemma track_Some (tokens : list string) (cleaned : string)
    (log : list (string * string)) :
  track slang_dict stopwords stem tokens = Some (cleaned, log) <->
  Forall (fun w => slang_dict !! w = None) tokens
  /\ cleaned = join_space (map stem (kept_tokens stopwords tokens))
  /\ log = remove_dups (stem_all stem (kept_tokens stopwords tokens)).2.
Proof.
  unfold track, lower_and_filter.
  pose proof (translate_slang_tokens tokens) as Ht.
  destruct (translate_slang slang_dict tokens) as [mt sp] eqn:Ets.
  cbn [fst] in Ht. subst mt.
  destruct (lower_or_raise tokens) as [(Hall & Hm & Hp)|(Hex & Hm)].
  - rewrite Hm. cbn [mbind option_bind]. fold (kept_tokens stopwords tokens).
    rewrite Ets in Hp. cbn [snd] in Hp. subst sp.
    pose proof (stem_all_tokens (kept_tokens stopwords tokens)) as Hs.
    destruct (stem_all stem (kept_tokens stopwords tokens)) as [st stp]. cbn [fst snd] in *.
    subst st. cbn [word_pairs omap app]. split.
    + intros [= <- <-]. now repeat split.
    + intros (_ & -> & ->). reflexivity.
  - rewrite Hm. cbn [mbind option_bind]. split; [discriminate|].
    intros (Hall & _). exfalso.
    apply Exists_exists in Hex as (w & Hw & [col Hcol]).
    rewrite Forall_forall in Hall. rewrite (Hall w Hw) in Hcol. discriminate.
Qed.

Lemma track_None (tokens : list string) :
  track slang_dict stopwords stem tokens = None <->
  exists w, w ∈ tokens /\ is_Some (slang_dict !! w).
Proof.
  split.
  - intros H. destruct (lower_or_raise tokens) as [(Hall & _)|(Hex & _)].
    + pose proof (proj2 (track_Some tokens _ _)
                    (conj Hall (conj eq_refl eq_refl))) as Hs.
      congruence.
    + now apply Exists_exists in Hex.
  - intros (w & Hw & [col Hcol]).
    destruct (track slang_dict stopwords stem tokens) as [[c l]|] eqn:E;
      [|reflexivity].
    apply track_Some in E as (Hall & _). rewrite Forall_forall in Hall.
    rewrite (Hall w Hw) in Hcol. discriminate.
Qed.

Lemma track_log (tokens : list string) (cleaned : string)
    (log : list (string * string)) (a b : string) :
  track slang_dict stopwords stem tokens = Some (cleaned, log) ->
  ((a, b) ∈ log <-> a ∈ kept_tokens stopwords tokens /\ b = stem a /\ a <> b).
Proof.
  intros H. apply track_Some in H as (_ & _ & ->).
  now rewrite elem_of_remove_dups, stem_all_pairs.
Qed.

End TrackingFacts.

(** X13. When preprocessing returns, the transform log holds each record
    once, never a record whose two sides are equal, and exactly these
    records: a lower-cased token of the cleaned text that is no stop word,
    with its stem, when the stem differs.  No record comes from the slang
    table. *)
Theorem transform_log_provenance (slang_dict : gmap string (gmap string string))
    (stopwords : list string) (stem : string -> string) (tokens : list string)
    (cleaned : string) (log : list (string * string)) :
  track slang_dict stopwords stem tokens = Some (cleaned, log) ->
  NoDup log
  /\ forall a b,
       (a, b) ∈ log <->
       a <> b /\ b = stem a /\ (a ∉ stopwords)
       /\ exists w, w ∈ tokens /\ a = lower w.
Proof.
  intros H. split.
  - apply track_Some in H as (_ & _ & ->). apply NoDup_remove_dups.
  - intros a b. rewrite (track_log _ _ _ _ _ _ a b H), elem_of_kept_tokens. tauto.
Qed.

Lemma transform_log_provenance_witness :
  track sample_slang ["the"; "was"] sample_stem ["the"; "AMAZING"; "film"]
  = Some ("amaz film", [("amazing", "amaz")])
  /\ NoDup [("amazing", "amaz")].
Proof.
  assert (H : track sample_slang ["the"; "was"] sample_stem
                ["the"; "AMAZING"; "film"]
              = Some ("amaz film", [("amazing", "amaz")]))
    by (vm_compute; reflexivity).
  split; [exact H|].
  exact (proj1 (transform_log_provenance _ _ _ _ _ _ H)).
Defined.

(** X14. Preprocessing raises [AttributeError] exactly when a token of
    the cleaned text is the name of a column of the slang table: the
    look-up then answers the column, a dict, which has no [lower]. *)
Theorem preprocessing_raises_on_column_name
    (word_tokenize : string -> list string)
    (slang_dict : gmap string (gmap string string))
    (stopwords : list string) (stem : string -> string) (text : string) :
  preprocess_with_tracking word_tokenize slang_dict stopwords stem text = None
  <-> exists w, w ∈ word_tokenize (clean_text text)
                /\ is_Some (slang_dict !! w).
Proof. unfold preprocess_with_tracking. apply track_None. Qed.

(** X15. Tokens that are already clean go through unchanged: when no
    token names a column of the slang table, has an upper-case letter, is
    a stop word or is changed by the stemmer, the cleaned text is the
    tokens joined by blanks and the log is empty. *)
Theorem clean_tokens_unchanged (slang_dict : gmap string (gmap string string))
    (stopwords : list string) (stem : string -> string) (tokens : list string) :
  (forall w, w ∈ tokens ->
     slang_dict !! w = None /\ lower w = w /\ (w ∉ stopwords) /\ stem w = w) ->
  track slang_dict stopwords stem tokens = Some (join_space tokens, []).
Proof.
  intros H.
  assert (Hk : kept_tokens stopwords tokens = tokens).
  { unfold kept_tokens. clear -H.
    induction tokens as [|w rest IH]; [reflexivity|]. cbn.
    destruct (H w ltac:(left)) as (_ & Hl & Hs & _). rewrite Hl.
    rewrite bool_decide_eq_false_2 by exact Hs. cbn. f_equal.
    apply IH. intros x Hx. apply H. now right. }
  assert (Hst : map stem tokens = tokens).
  { rewrite <- (map_id tokens) at 2. apply map_ext_in. intros w Hw.
    apply list_elem_of_In, H in Hw. tauto. }
  apply track_Some. split; [|split].
  - apply Forall_forall. intros w Hw. now apply H.
  - now rewrite Hk, Hst.
  - rewrite Hk.
    destruct (remove_dups (stem_all stem tokens).2) as [|[a b] l] eqn:E;
      [reflexivity|].
    assert (Hin : (a, b) ∈ remove_dups (stem_all stem tokens).2)
      by (rewrite E; left).
    apply elem_of_remove_dups, stem_all_pairs in Hin as (Ha & Hb & Hne).
    apply H in Ha as (_ & _ & _ & Hs). congruence.
Qed.

Lemma clean_tokens_unchanged_witness :
  (forall w, w ∈ ["best"; "film"] ->
     sample_slang !! w = None
     /\ lower w = w /\ (w ∉ ["the"; "was"]) /\ sample_stem w = w)
  /\ track sample_slang ["the"; "was"] sample_stem ["best"; "film"]
     = Some ("best film", []).
Proof.
  assert (H : forall w, w ∈ ["best"; "film"] ->
     sample_slang !! w = None
     /\ lower w = w /\ (w ∉ ["the"; "was"]) /\ sample_stem w = w).
  { intros w Hw.
    assert (Hc : w = "best" \/ w = "film").
    { apply elem_of_cons in Hw as [Hw|Hw]; [now left|].
      apply list_elem_of_singleton in Hw. now right. }
    destruct Hc as [-> | ->]; (split; [reflexivity|]); (split; [reflexivity|]);
      (split; [|reflexivity]);
      intros Hin; apply elem_of_cons in Hin as [Hin|Hin]; try discriminate;
      apply list_elem_of_singleton in Hin; discriminate. }
  split; [exact H|].
  exact (clean_tokens_unchanged _ _ _ _ H).
Defined.

(** X16. When preprocessing returns, a lower-case token of the cleaned
    text that is no stop word and that the stemmer changes is recorded
    with its stem, and the reverse map built from the log answers that
    stem for it; so wherever the same token is located in the raw text,
    with a stem of significant score, it is highlighted with that score. *)
Theorem stemmed_token_highlighted (slang_dict : gmap string (gmap string string))
    (stopwords : list string) (stem : string -> string)
    (tokens : list string) (cleaned : string) (log : list (string * string))
    (w : string) (df : frame) (v : Q) (wps : list position) (st en : Z) :
  track slang_dict stopwords stem tokens = Some (cleaned, log) ->
  w ∈ tokens ->
  lower w = w ->
  w ∉ stopwords ->
  stem w <> w ->
  shap_at df (stem w) = Some v ->
  (threshold <= Qabs v)%Q ->
  (w, st, en) ∈ wps ->
  reverse_mapping log !! w = Some (stem w)
  /\ Entity st en (make_label v) ∈ entities (reverse_mapping log) df wps.
Proof.
  intros Htrack Hw Hl Hstop Hstem Hdf Hv Hpos.
  assert (Hin : (w, stem w) ∈ log).
  { apply (track_log _ _ _ _ _ _ w (stem w) Htrack).
    split; [|split; [reflexivity|congruence]].
    apply elem_of_kept_tokens. split; [exact Hstop|].
    exists w. split; [exact Hw | now rewrite Hl]. }
  assert (Hrm : reverse_mapping log !! w = Some (stem w)).
  { destruct (reverse_mapping log !! w) as [p|] eqn:E.
    - apply reverse_mapping_lookup_Some in E.
      apply (track_log _ _ _ _ _ _ w p Htrack) in E as (_ & Hp & _).
      now subst p.
    - apply reverse_mapping_lookup_None in E. exfalso. apply E.
      apply list_elem_of_In, in_map_iff. exists (w, stem w).
      split; [reflexivity | now apply list_elem_of_In]. }
  split; [exact Hrm|].
  apply elem_of_entities. exists w, st, en, (stem w), v. now repeat split.
Qed.

Lemma stemmed_token_highlighted_witness :
  let tokens := ["this"; "was"; "terrible"] in
  let df := [("terribl", - (1 # 2))%Q] in
  let wps := word_positions "this was terrible" tokens in
  track sample_slang ["this"; "was"] sample_stem tokens
  = Some ("terribl", [("terrible", "terribl")])
  /\ "terrible" ∈ tokens
  /\ lower "terrible" = "terrible"
  /\ ("terrible" ∉ ["this"; "was"])
  /\ sample_stem "terrible" <> "terrible"
  /\ shap_at df (sample_stem "terrible") = Some (- (1 # 2))%Q
  /\ (threshold <= Qabs (- (1 # 2)))%Q
  /\ ("terrible", 9, 17) ∈ wps
  /\ Entity 9 17 (make_label (- (1 # 2))%Q)
       ∈ entities (reverse_mapping [("terrible", "terribl")]) df wps.
Proof.
  intros tokens df wps.
  assert (H0 : track sample_slang ["this"; "was"] sample_stem tokens
               = Some ("terribl", [("terrible", "terribl")]))
    by (vm_compute; reflexivity).
  assert (H1 : "terrible" ∈ tokens) by (do 2 right; left).
  assert (H3 : lower "terrible" = "terrible") by reflexivity.
  assert (H4 : "terrible" ∉ ["this"; "was"]).
  { intros Hin. apply elem_of_cons in Hin as [Hin|Hin]; [discriminate|].
    apply list_elem_of_singleton in Hin. discriminate. }
  assert (H5 : sample_stem "terrible" <> "terrible") by (vm_compute; discriminate).
  assert (H6 : shap_at df (sample_stem "terrible") = Some (- (1 # 2))%Q)
    by reflexivity.
  assert (H7 : (threshold <= Qabs (- (1 # 2)))%Q)
    by (apply Qle_bool_iff; reflexivity).
  assert (H8 : ("terrible", 9, 17) ∈ wps) by (vm_compute; do 2 right; left).
  repeat (split; [assumption|]).
  exact (proj2 (stemmed_token_highlighted sample_slang ["this"; "was"]
                  sample_stem tokens _ _ "terrible" df _ wps 9 17
                  H0 H1 H3 H4 H5 H6 H7 H8)).
Defined.

(** ** The substitutions of the cleaning step *)

Lemma strip_repeats_from_length (s : string) :
  forall skip, (String.length (strip_repeats_from skip s) <= String.length s)%nat.
Proof.
  induction s as [|c t IH]; intros skip; [cbn; lia|].
  cbn [strip_repeats_from].
  destruct (match skip with Some d => Ascii.eqb c d | None => false end).
  - specialize (IH skip). cbn. lia.
  - destruct (is_word c && starts_with_run 5 c t).
    + specialize (IH (Some c)). cbn. lia.
    + specialize (IH None). cbn. lia.
Qed.

Lemma strip_repeats_no_long_run (s : string) :
  has_long_run s = false -> strip_repeats_from None s = s.
Proof.
  induction s as [|c t IH]; intros H; [reflexivity|].
  cbn [has_long_run] in H. apply orb_false_iff in H as [H1 H2].
  cbn [strip_repeats_from]. rewrite H1. f_equal. now apply IH.
Qed.

Lemma strip_repeats_long_run (s : string) :
  has_long_run s = true ->
  (String.length (strip_repeats_from None s) < String.length s)%nat.
Proof.
  induction s as [|c t IH]; intros H; [discriminate|].
  cbn [has_long_run] in H. cbn [strip_repeats_from].
  destruct (is_word c && starts_with_run 5 c t) eqn:E.
  - pose proof (strip_repeats_from_length t (Some c)). cbn. lia.
  - cbn in H. specialize (IH H). cbn. lia.
Qed.

(** X17. The repeated-character substitution changes a text exactly when
    six equal word characters stand in a row somewhere in it; any other text
    comes back unchanged, and a changed text is strictly shorter. *)
Theorem strip_repeats_changes_iff_long_run (text : string) :
  (strip_repeats text = text <-> has_long_run text = false)
  /\ (String.length (strip_repeats text) <= String.length text)%nat.
Proof.
  split; [|apply strip_repeats_from_length].
  unfold strip_repeats. split.
  - intros E. destruct (has_long_run text) eqn:H; [|reflexivity].
    apply strip_repeats_long_run in H. rewrite E in H. lia.
  - apply strip_repeats_no_long_run.
Qed.

(** Each of the first four substitutions only takes characters away. *)
Lemma strip_urls_sublist (s : string) :
  forall b, chars (strip_urls_from b s) `sublist_of` chars s.
Proof.
  induction s as [|c t IH]; intros b; [constructor|].
  cbn [strip_urls_from].
  destruct (is_space c); [apply sublist_skip, IH|].
  destruct b; [apply sublist_cons, IH|].
  destruct (url_at (String c t)); [apply sublist_cons, IH | apply sublist_skip, IH].
Qed.

Lemma strip_tags_sublist (s : string) :
  forall b, chars (strip_tags_from b s) `sublist_of` chars s.
Proof.
  induction s as [|c t IH]; intros b; [constructor|].
  cbn [strip_tags_from].
  destruct b; [apply sublist_cons, IH|].
  destruct (Ascii.eqb c "<" && closes_on_line t);
    [apply sublist_cons, IH | apply sublist_skip, IH].
Qed.

Lemma strip_mentions_sublist (s : string) :
  forall m, chars (strip_mentions_from m s) `sublist_of` chars s.
Proof.
  induction s as [|c t IH]; intros m; [constructor|].
  cbn [strip_mentions_from].
  assert (Hgo : chars
                  (if match m with InWord => is_word c | _ => false end
                   then strip_mentions_from InWord t
                   else if (Ascii.eqb c "@" || Ascii.eqb c "#") && starts_word t
                        then strip_mentions_from InWord t
                        else if Ascii.eqb c "@" && starts_blank_word t
                             then strip_mentions_from OnBlank t
                             else String c (strip_mentions_from Outside t))
                `sublist_of` chars (String c t)).
  { destruct (match m with InWord => is_word c | _ => false end);
      [apply sublist_cons, IH|].
    destruct ((Ascii.eqb c "@" || Ascii.eqb c "#") && starts_word t);
      [apply sublist_cons, IH|].
    destruct (Ascii.eqb c "@" && starts_blank_word t);
      [apply sublist_cons, IH | apply sublist_skip, IH]. }
  destruct m; [exact Hgo | apply sublist_cons, IH | exact Hgo].
Qed.

Lemma strip_repeats_sublist (s : string) :
  forall skip, chars (strip_repeats_from skip s) `sublist_of` chars s.
Proof.
  induction s as [|c t IH]; intros skip; [constructor|].
  cbn [strip_repeats_from].
  destruct (match skip with Some d => Ascii.eqb c d | None => false end);
    [apply sublist_cons, IH|].
  destruct (is_word c && starts_with_run 5 c t);
    [apply sublist_cons, IH | apply sublist_skip, IH].
Qed.

(** X18. The first four substitutions (links, tags, mentions and
    hashtags, repeated characters) only delete: what they leave is the raw
    text with some characters taken out, the others in their order. *)
Theorem deleting_steps_keep_a_subsequence (text : string) :
  chars (strip_repeats (strip_mentions (strip_tags (strip_urls text))))
    `sublist_of` chars text.
Proof.
  etransitivity; [apply strip_repeats_sublist|].
  etransitivity; [apply strip_mentions_sublist|].
  etransitivity; [apply strip_tags_sublist|].
  apply strip_urls_sublist.
Qed.

Lemma closes_on_line_strip_tags (t : string) :
  closes_on_line t = false -> closes_on_line (strip_tags_from false t) = false.
Proof.
  induction t as [|c t IH]; intros H; [reflexivity|].
  cbn [closes_on_line] in H. cbn [strip_tags_from].
  destruct (Ascii.eqb c ">") eqn:E1; [discriminate|].
  destruct (Ascii.eqb c "010") eqn:E2.
  - apply Ascii.eqb_eq in E2. subst c. cbn. reflexivity.
  - rewrite H, andb_false_r. cbn [closes_on_line]. rewrite E1, E2. now apply IH.
Qed.

Lemma no_tag_strip_tags (s : string) :
  forall b, no_tag (strip_tags_from b s) = true.
Proof.
  induction s as [|c t IH]; intros b; [reflexivity|].
  cbn [strip_tags_from]. destruct b; [apply IH|].
  destruct (Ascii.eqb c "<" && closes_on_line t) eqn:E; [apply IH|].
  cbn [no_tag]. rewrite IH, andb_true_r. apply negb_true_iff.
  apply andb_false_iff in E as [E|E]; [now rewrite E|].
  rewrite (closes_on_line_strip_tags t E). apply andb_false_r.
Qed.

(** X19. After the tag substitution no complete tag is left: no [<] of
    the result is followed by a [>] on the same line, although the
    substitution runs only once. *)
Theorem no_tag_after_strip_tags (text : string) :
  no_tag (strip_tags text) = true.
Proof. apply no_tag_strip_tags. Qed.

Lemma spaces_of_strip_urls (s : string) :
  forall b, spaces_of (strip_urls_from b s) = spaces_of s.
Proof.
  induction s as [|c t IH]; intros b; [reflexivity|].
  cbn [strip_urls_from spaces_of].
  destruct (is_space c) eqn:E.
  - cbn [spaces_of]. rewrite E. f_equal. apply IH.
  - destruct b; [apply IH|].
    destruct (url_at (String c t)); [apply IH|].
    cbn [spaces_of]. rewrite E. apply IH.
Qed.

(** X20. The link substitution never deletes white space: the white
    space characters of its result are those of the text, so it takes out
    whole words and never joins two of them. *)
Theorem strip_urls_keeps_white_space (text : string) :
  spaces_of (strip_urls text) = spaces_of text.
Proof. apply spaces_of_strip_urls. Qed.

(** ** The cleaned text *)

Lemma letter_facts (c : ascii) :
  is_letter c = true ->
  is_space c = false /\ Ascii.eqb c " " = false /\ Ascii.eqb c "<" = false
  /\ Ascii.eqb c "@" = false /\ Ascii.eqb c "#" = false
  /\ Ascii.eqb c "." = false.
Proof.
  destruct c as [b0 b1 b2 b3 b4 b5 b6 b7].
  destruct b0, b1, b2, b3, b4, b5, b6, b7; vm_compute; intros H;
    try discriminate H; repeat split.
Qed.

Lemma collapse_single_blanks (s : string) :
  forall b, single_blanks b (collapse_from b (letters_only s)) = true.
Proof.
  induction s as [|c t IH]; intros b; [reflexivity|].
  cbn [letters_only collapse_from].
  destruct (is_letter c) eqn:El.
  - destruct (letter_facts c El) as (Es & Eb & _).
    cbn [orb]. rewrite Es. cbn [single_blanks]. rewrite Eb, El. apply IH.
  - cbn [orb]. destruct (is_space c) eqn:Es.
    + rewrite Es. destruct b; [apply IH|].
      cbn [single_blanks]. cbn. apply IH.
    + change (is_space " ") with true. cbn match. destruct b; [apply IH|].
      cbn [single_blanks]. cbn. apply IH.
Qed.

Lemma single_blanks_lstrip (x : string) :
  forall b, single_blanks b x = true -> single_blanks true (lstrip x) = true.
Proof.
  induction x as [|c t IH]; intros b H; [reflexivity|].
  cbn [single_blanks] in H. cbn [lstrip].
  destruct (Ascii.eqb c " ") eqn:Eb.
  - apply Ascii.eqb_eq in Eb. subst c. change (is_space " ") with true. cbn match.
    apply andb_true_iff in H as [_ H]. now apply (IH true).
  - apply andb_true_iff in H as [Hl H].
    destruct (letter_facts c Hl) as (Es & _). rewrite Es.
    cbn [single_blanks]. now rewrite Eb, Hl, H.
Qed.

Lemma single_blanks_rstrip (y : string) :
  forall b, single_blanks b y = true ->
            rstrip y = EmptyString \/ tidy_from b (rstrip y) = true.
Proof.
  induction y as [|c t IH]; intros b H; [now left|].
  cbn [single_blanks] in H. cbn [rstrip].
  destruct (Ascii.eqb c " ") eqn:Eb.
  - apply Ascii.eqb_eq in Eb. subst c.
    apply andb_true_iff in H as [Hb H]. apply negb_true_iff in Hb. subst b.
    destruct (IH true H) as [E|E].
    + rewrite E. now left.
    + destruct (rstrip t) as [|d r] eqn:Er; [now left|]. right.
      cbn [tidy_from]. cbn. exact E.
  - apply andb_true_iff in H as [Hl H].
    destruct (letter_facts c Hl) as (Es & _). rewrite Es.
    destruct (IH false H) as [E|E].
    + rewrite E. right. cbn [tidy_from]. rewrite Eb, Hl. reflexivity.
    + destruct (rstrip t) as [|d r] eqn:Er.
      * right. cbn [tidy_from]. rewrite Eb, Hl. reflexivity.
      * right. cbn [tidy_from]. rewrite Eb, Hl. exact E.
Qed.

Lemma tidy_steps_5_6 (s : string) : tidy (strip (collapse (letters_only s))) = true.
Proof.
  unfold strip, collapse.
  pose proof (collapse_single_blanks s false) as H1.
  apply single_blanks_lstrip in H1. apply single_blanks_rstrip in H1.
  destruct H1 as [E|E]; [now rewrite E|].
  unfold tidy. destruct (rstrip _); [reflexivity | exact E].
Qed.

(** X21. Whatever the review, the cleaned text holds ASCII letters and
    blanks only, with no blank at either end and never two blanks in a
    row. *)
Theorem clean_text_is_tidy (text : string) : tidy (clean_text text) = true.
Proof. unfold clean_text. apply tidy_steps_5_6. Qed.

(** *** Texts the cleaning leaves alone *)

Lemma tidy_from_plain (s : string) :
  forall b, tidy_from b s = true -> plain s = true.
Proof.
  induction s as [|c t IH]; intros b H; [reflexivity|].
  cbn [tidy_from] in H. cbn [plain].
  destruct (Ascii.eqb c " ") eqn:Eb.
  - apply andb_true_iff in H as [_ H]. rewrite orb_true_r. cbn. now apply (IH true).
  - apply andb_true_iff in H as [Hl H]. rewrite Hl. cbn. now apply (IH false).
Qed.

Lemma plain_char (c : ascii) :
  is_letter c || Ascii.eqb c " " = true ->
  Ascii.eqb c "<" = false /\ Ascii.eqb c "@" = false /\ Ascii.eqb c "#" = false
  /\ Ascii.eqb c "." = false /\ (is_letter c || is_space c = true).
Proof.
  intros H. apply orb_true_iff in H as [H|H].
  - destruct (letter_facts c H) as (_ & _ & ? & ? & ? & ?). rewrite H. now repeat split.
  - apply Ascii.eqb_eq in H. subst c. now repeat split.
Qed.

Lemma plain_no_dot_slash (s : string) :
  plain s = true ->
  dot_slash_from UrlStart s = false /\ dot_slash_from UrlHead s = false.
Proof.
  induction s as [|c t IH]; intros H; [now split|].
  cbn [plain] in H. apply andb_true_iff in H as [Hc H].
  destruct (IH H) as [_ IH2]. destruct (plain_char c Hc) as (_ & _ & _ & Ed & _).
  cbn [dot_slash_from]. rewrite Ed.
  destruct (is_space c); now split.
Qed.

Lemma strip_urls_plain (s : string) :
  plain s = true ->
  (forall a b, s <> (a ++ "http" ++ b)%string) ->
  (forall a b, s <> (a ++ "www" ++ b)%string) ->
  strip_urls_from false s = s.
Proof.
  induction s as [|c t IH]; intros Hp Hh Hw; [reflexivity|].
  cbn [strip_urls_from].
  assert (Hu : url_at (String c t) = false).
  { unfold url_at.
    destruct (String.prefix "http" (String c t)) eqn:E1.
    { apply prefix_split in E1 as [b E1]. exfalso.
      apply (Hh "" b). now rewrite PyFacts.app_nil. }
    destruct (String.prefix "www" (String c t)) eqn:E2.
    { apply prefix_split in E2 as [b E2]. exfalso.
      apply (Hw "" b). now rewrite PyFacts.app_nil. }
    cbn [andb orb]. now apply plain_no_dot_slash. }
  rewrite Hu.
  cbn [plain] in Hp. apply andb_true_iff in Hp as [_ Hp].
  assert (E : strip_urls_from false t = t).
  { apply IH; [exact Hp| |].
    - intros a b Ht. apply (Hh (String c a) b). rewrite PyFacts.app_cons. now f_equal.
    - intros a b Ht. apply (Hw (String c a) b). rewrite PyFacts.app_cons. now f_equal. }
  rewrite E. now destruct (is_space c).
Qed.

Lemma strip_tags_plain (s : string) :
  plain s = true -> strip_tags_from false s = s.
Proof.
  induction s as [|c t IH]; intros Hp; [reflexivity|].
  cbn [plain] in Hp. apply andb_true_iff in Hp as [Hc Hp].
  destruct (plain_char c Hc) as (E & _).
  cbn [strip_tags_from]. rewrite E. cbn [andb]. f_equal. now apply IH.
Qed.

Lemma strip_mentions_plain (s : string) :
  plain s = true -> strip_mentions_from Outside s = s.
Proof.
  induction s as [|c t IH]; intros Hp; [reflexivity|].
  cbn [plain] in Hp. apply andb_true_iff in Hp as [Hc Hp].
  destruct (plain_char c Hc) as (_ & E1 & E2 & _).
  cbn [strip_mentions_from]. rewrite E1, E2. cbn [orb andb]. f_equal. now apply IH.
Qed.

Lemma letters_only_plain (s : string) :
  plain s = true -> letters_only s = s.
Proof.
  induction s as [|c t IH]; intros Hp; [reflexivity|].
  cbn [plain] in Hp. apply andb_true_iff in Hp as [Hc Hp].
  destruct (plain_char c Hc) as (_ & _ & _ & _ & E).
  cbn [letters_only]. rewrite E. f_equal. now apply IH.
Qed.

Lemma collapse_tidy (s : string) :
  forall b, tidy_from b s = true -> collapse_from b s = s.
Proof.
  induction s as [|c t IH]; intros b H; [reflexivity|].
  cbn [tidy_from] in H. cbn [collapse_from].
  destruct (Ascii.eqb c " ") eqn:Eb.
  - apply Ascii.eqb_eq in Eb. subst c. change (is_space " ") with true. cbn match.
    apply andb_true_iff in H as [Hb H]. apply negb_true_iff in Hb. subst b.
    f_equal. now apply IH.
  - apply andb_true_iff in H as [Hl H].
    destruct (letter_facts c Hl) as (Es & _). rewrite Es. f_equal. now apply IH.
Qed.

Lemma rstrip_tidy (s : string) :
  forall b, tidy_from b s = true -> rstrip s = s.
Proof.
  induction s as [|c t IH]; intros b H; [reflexivity|].
  cbn [tidy_from] in H. cbn [rstrip].
  destruct (Ascii.eqb c " ") eqn:Eb.
  - apply andb_true_iff in H as [_ H]. rewrite (IH true H).
    destruct t; [discriminate H | reflexivity].
  - apply andb_true_iff in H as [Hl H]. rewrite (IH false H).
    destruct (letter_facts c Hl) as (Es & _). rewrite Es. now destruct t.
Qed.

Lemma steps_5_6_tidy (s : string) :
  tidy s = true -> strip (collapse (letters_only s)) = s.
Proof.
  destruct s as [|c t]; [reflexivity|]. unfold tidy. intros H.
  rewrite letters_only_plain by now apply tidy_from_plain in H.
  assert (Hc : is_space c = false).
  { cbn [tidy_from] in H. destruct (Ascii.eqb c " "); [discriminate H|].
    apply andb_true_iff in H as [Hl _]. now destruct (letter_facts c Hl). }
  assert (E : collapse (String c t) = String c t).
  { unfold collapse. transitivity (collapse_from true (String c t)).
    - cbn [collapse_from]. now rewrite Hc.
    - now apply collapse_tidy. }
  rewrite E. unfold strip. cbn [lstrip]. rewrite Hc. now apply (rstrip_tidy _ true).
Qed.

Lemma find_absent (s w : string) :
  Py.find s w 0 = -1 -> forall a b, s <> (a ++ w ++ b)%string.
Proof.
  intros H a b ->.
  pose proof (find_between a w b 0 ltac:(lia)). lia.
Qed.

(** X22. A text that is already clean comes back unchanged: letters and
    single blanks only, no blank at either end, neither [http] nor [www]
    anywhere in it and no six equal letters in a row. *)
Theorem clean_text_fixes_clean_text (text : string) :
  tidy text = true ->
  Py.find text "http" 0 = -1 ->
  Py.find text "www" 0 = -1 ->
  has_long_run text = false ->
  clean_text text = text.
Proof.
  intros Ht Hh Hw Hr.
  assert (Hp : plain text = true).
  { destruct text; [reflexivity|]. now apply tidy_from_plain in Ht. }
  unfold clean_text, strip_urls, strip_tags, strip_mentions, strip_repeats.
  rewrite strip_urls_plain; [|exact Hp|now apply find_absent..].
  rewrite strip_tags_plain, strip_mentions_plain by exact Hp.
  rewrite strip_repeats_no_long_run by exact Hr.
  now apply steps_5_6_tidy.
Qed.

Lemma clean_text_fixes_clean_text_witness :
  tidy "Totally lit best film ever" = true
  /\ Py.find "Totally lit best film ever" "http" 0 = -1
  /\ Py.find "Totally lit best film ever" "www" 0 = -1
  /\ has_long_run "Totally lit best film ever" = false
  /\ clean_text "Totally lit best film ever" = "Totally lit best film ever".
Proof.
  assert (H1 : tidy "Totally lit best film ever" = true) by reflexivity.
  assert (H2 : Py.find "Totally lit best film ever" "http" 0 = -1) by reflexivity.
  assert (H3 : Py.find "Totally lit best film ever" "www" 0 = -1) by reflexivity.
  assert (H4 : has_long_run "Totally lit best film ever" = false) by reflexivity.
  repeat (split; [assumption|]).
  exact (clean_text_fixes_clean_text _ H1 H2 H3 H4).
Defined.

(** ** The bar chart *)

Lemma Qlt_bool_iff (x y : Q) : Qlt_bool x y = true <-> (x < y)%Q.
Proof.
  unfold Qlt_bool. rewrite negb_true_iff. split.
  - intros H. apply Qnot_le_lt. intros Hle. apply Qle_bool_iff in Hle. congruence.
  - intros H. destruct (Qle_bool y x) eqn:E; [|reflexivity].
    apply Qle_bool_iff in E. exfalso. exact (Qlt_not_le _ _ H E).
Qed.

Lemma shap_at_NoDup (df : frame) (r : string * Q) :
  NoDup (map fst df) -> r ∈ df -> shap_at df r.1 = Some r.2.
Proof.
  induction df as [|[name v] df IH]; intros Hnd Hin; [now apply elem_of_nil in Hin|].
  cbn in Hnd. apply NoDup_cons in Hnd as [Hx Hnd]. cbn [shap_at].
  apply elem_of_cons in Hin as [->|Hin].
  - cbn. now rewrite String.eqb_refl.
  - destruct (String.eqb_spec name r.1) as [E|E]; [|now apply IH].
    exfalso. apply Hx. rewrite E. apply list_elem_of_In, in_map_iff.
    exists r. split; [reflexivity | now apply list_elem_of_In].
Qed.

Lemma elem_of_color_labels (df top : frame) (l : label) :
  l ∈ color_labels df top <->
  exists r v, r ∈ top /\ shap_at df r.1 = Some v
              /\ ((l = Label POS v /\ (threshold < v)%Q)
                  \/ (l = Label NEG v /\ (v < - threshold)%Q)).
Proof.
  unfold color_labels. rewrite elem_of_app. split.
  - intros [H|H]; apply list_elem_of_In, in_map_iff in H as (v & <- & Hv);
      apply filter_In in Hv as [Hv Hc]; apply Qlt_bool_iff in Hc;
      apply list_elem_of_In, list_elem_of_omap in Hv as (r & Hr & Hs);
      exists r, v; (split; [exact Hr|]); (split; [exact Hs|]);
      [left | right]; now split.
  - intros (r & v & Hr & Hs & [[-> Hc]|[-> Hc]]); [left | right];
      apply list_elem_of_In, in_map_iff; exists v; (split; [reflexivity|]);
      apply filter_In; (split; [|now apply Qlt_bool_iff]);
      apply list_elem_of_In, list_elem_of_omap; now exists r.
Qed.

Section ChartFacts.

Variable fmt2 : Q -> string.
Variable pos_color : Q -> string.
Variable neg_color : Q -> string.

Lemma color_fold_lookup (ls : list label) (key : string) :
  is_Some (foldl (fun m l => <[ label_text fmt2 l := color_of pos_color neg_color l ]> m)
             (∅ : gmap string string) ls !! key)
  <-> exists l, l ∈ ls /\ label_text fmt2 l = key.
Proof.
  induction ls as [|l ls IH] using rev_ind.
  - cbn. rewrite lookup_empty. split; [intros [? ?]; discriminate|].
    intros (l & Hl & _). now apply elem_of_nil in Hl.
  - rewrite foldl_app. cbn [foldl]. rewrite lookup_insert.
    destruct (decide (label_text fmt2 l = key)) as [E|E].
    + split; [|intros _; eauto]. intros _. exists l. split; [|exact E].
      apply elem_of_app. right. left.
    + rewrite IH. split.
      * intros (l' & Hl' & E'). exists l'. split; [|exact E'].
        apply elem_of_app. now left.
      * intros (l' & Hl' & E'). apply elem_of_app in Hl' as [Hl'|Hl'].
        -- now exists l'.
        -- apply list_elem_of_singleton in Hl'. congruence.
Qed.

Lemma selected_row_has_color (df top : frame) (r : string * Q) :
  NoDup (map fst df) -> r ∈ top -> r ∈ df ->
  (threshold < Qabs r.2)%Q ->
  is_Some (color_options fmt2 pos_color neg_color df top
             !! label_text fmt2 (make_label r.2)).
Proof.
  intros Hnd Hr Hdf Hv. unfold color_options. apply color_fold_lookup.
  exists (make_label r.2). split; [|reflexivity].
  apply elem_of_color_labels. exists r, r.2. split; [exact Hr|].
  split; [now apply shap_at_NoDup|].
  unfold make_label. destruct (Qlt_bool 0 r.2) eqn:E.
  - left. split; [reflexivity|]. apply Qlt_bool_iff in E.
    rewrite Qabs_pos in Hv by now apply Qlt_le_weak. exact Hv.
  - right. split; [reflexivity|].
    assert (Hle : (r.2 <= 0)%Q).
    { apply Qnot_lt_le. intros H. apply Qlt_bool_iff in H. congruence. }
    rewrite Qabs_neg in Hv by exact Hle.
    apply Qopp_lt_compat in Hv. now rewrite Qopp_involutive in Hv.
Qed.

Lemma plot_Some (top : frame) (n : Z) (colors : gmap string string) :
  Forall (fun r : string * Q => is_Some (colors !! label_text fmt2 (make_label r.2)))
         top ->
  exists chart,
    plot_shap_bar_chart fmt2 top n colors = Some chart
    /\ bc_x chart = map snd top /\ bc_y chart = map fst top
    /\ List.length (bc_colors chart) = List.length top
    /\ bc_count chart = n.
Proof.
  intros H. unfold plot_shap_bar_chart.
  assert (Hm : is_Some (mapM (fun r : string * Q =>
                                colors !! label_text fmt2 (make_label r.2)) top)).
  { apply mapM_is_Some. exact H. }
  destruct Hm as [cs Hcs]. rewrite Hcs. cbn.
  eexists. split; [reflexivity|]. cbn.
  repeat split. symmetry. now apply length_mapM in Hcs.
Qed.

End ChartFacts.

Lemma bar_chart_colors_helper (fmt2 pos_color neg_color : Q -> string)
    (df : frame) (wm : list (string * string)) (top_n : Z) :
  NoDup (map fst df) ->
  (forall r, r ∈ (compute_shap_values df wm top_n).1.2 ->
             (threshold < Qabs r.2)%Q) ->
  exists chart,
    plot_shap_bar_chart fmt2 (compute_shap_values df wm top_n).1.2
      (compute_shap_values df wm top_n).2
      (color_options fmt2 pos_color neg_color df
         (compute_shap_values df wm top_n).1.2) = Some chart
    /\ bc_y chart = map fst (compute_shap_values df wm top_n).1.2
    /\ List.length (bc_colors chart)
       = List.length (compute_shap_values df wm top_n).1.2
    /\ bc_count chart
       = Z.of_nat (List.length (compute_shap_values df wm top_n).1.2).
Proof.
  intros Hnd Hv.
  destruct (plot_Some fmt2 (compute_shap_values df wm top_n).1.2
              (compute_shap_values df wm top_n).2
              (color_options fmt2 pos_color neg_color df
                 (compute_shap_values df wm top_n).1.2))
    as (chart & Hc & Hx & Hy & Hl & Hn).
  - apply Forall_forall. intros r Hr.
    apply selected_row_has_color; [exact Hnd|exact Hr| |now apply Hv].
    apply ranked_qualifying, elem_of_qualifying in Hr. tauto.
  - exists chart. repeat (split; [assumption|]).
    rewrite Hn. cbn [compute_shap_values fst snd]. unfold sort_values.
    now rewrite (Permutation_length (merge_sort_Permutation _ _)).
Qed.

(** X23. When the feature names are distinct and every selected score is
    strictly beyond the threshold, every bar finds its colour: the chart is
    drawn, with one colour per selected feature, the features and scores
    of the selection, and the selection's size as its count. *)
Theorem bar_chart_drawn_beyond_threshold (fmt2 pos_color neg_color : Q -> string)
    (df : frame) (word_mapping : list (string * string)) (top_n : Z) :
  let top := (compute_shap_values df word_mapping top_n).1.2 in
  let count := (compute_shap_values df word_mapping top_n).2 in
  NoDup (map fst df) ->
  (forall r, r ∈ top -> (threshold < Qabs r.2)%Q) ->
  exists chart,
    plot_shap_bar_chart fmt2 top count
      (color_options fmt2 pos_color neg_color df top) = Some chart
    /\ bc_x chart = map snd top /\ bc_y chart = map fst top
    /\ List.length (bc_colors chart) = List.length top
    /\ bc_count chart = Z.of_nat (List.length top).
Proof.
  intros top count Hnd Hv.
  destruct (plot_Some fmt2 top count
              (color_options fmt2 pos_color neg_color df top))
    as (chart & Hc & Hx & Hy & Hl & Hn).
  - apply Forall_forall. intros r Hr.
    apply selected_row_has_color; [exact Hnd|exact Hr| |now apply Hv].
    apply ranked_qualifying, elem_of_qualifying in Hr. tauto.
  - exists chart. repeat (split; [assumption|]).
    rewrite Hn. subst count top. cbn [compute_shap_values fst snd].
    unfold sort_values.
    now rewrite (Permutation_length (merge_sort_Permutation _ _)).
Qed.

Lemma bar_chart_drawn_beyond_threshold_witness :
  let df := [("amaz", 1 # 2); ("terribl", - (3 # 10)); ("great", 1 # 10)]%Q in
  let wm := [("amazing", "amaz"); ("terrible", "terribl"); ("lit", "great")] in
  NoDup (map fst df)
  /\ (forall r, r ∈ (compute_shap_values df wm 2).1.2 -> (threshold < Qabs r.2)%Q)
  /\ exists chart,
       plot_shap_bar_chart (fun _ => "x") (compute_shap_values df wm 2).1.2
         (compute_shap_values df wm 2).2
         (color_options (fun _ => "x") (fun _ => "red") (fun _ => "blue") df
            (compute_shap_values df wm 2).1.2) = Some chart
       /\ bc_y chart = ["terribl"; "amaz"].
Proof.
  intros df wm.
  assert (H1 : NoDup (map fst df))
    by (apply (bool_decide_unpack _); vm_compute; reflexivity).
  assert (H2 : forall r, r ∈ (compute_shap_values df wm 2).1.2 ->
                         (threshold < Qabs r.2)%Q).
  { intros r Hr.
    assert (Hc : r = ("terribl", - (3 # 10))%Q \/ r = ("amaz", (1 # 2)%Q)).
    { vm_compute in Hr. apply elem_of_cons in Hr as [Hr|Hr]; [now left|].
      apply list_elem_of_singleton in Hr. now right. }
    destruct Hc as [-> | ->]; reflexivity. }
  split; [exact H1|]. split; [exact H2|].
  destruct (bar_chart_drawn_beyond_threshold (fun _ => "x") (fun _ => "red")
              (fun _ => "blue") df wm 2 H1 H2) as (chart & Hc & _ & Hy & _).
  exists chart. split; [exact Hc|]. rewrite Hy. reflexivity.
Defined.

Lemma str_app_inv_tail (a b c : string) :
  (a ++ c)%string = (b ++ c)%string -> a = b.
Proof.
  revert b; induction a as [|x a IH]; intros b H.
  - destruct b as [|y b]; [reflexivity|]. exfalso.
    apply (f_equal String.length) in H.
    rewrite PyFacts.app_nil, PyFacts.length_app in H. cbn in H. lia.
  - destruct b as [|y b].
    + exfalso. apply (f_equal String.length) in H.
      rewrite PyFacts.app_nil, PyFacts.length_app in H. cbn in H. lia.
    + rewrite !PyFacts.app_cons in H. injection H as -> H. f_equal. now apply IH.
Qed.

Lemma label_text_inj (fmt2 : Q -> string) (l1 l2 : label) :
  label_text fmt2 l1 = label_text fmt2 l2 ->
  fmt2 (lab_value l1) = fmt2 (lab_value l2).
Proof.
  unfold label_text. intros H.
  assert (E : (fmt2 (lab_value l1) ++ ")")%string
              = (fmt2 (lab_value l2) ++ ")")%string).
  { destruct (lab_sign l1), (lab_sign l2);
      rewrite !PyFacts.app_cons, !PyFacts.app_nil in H; now injection H. }
  now apply str_app_inv_tail in E.
Qed.

(** X24. At the threshold the two tests disagree: a selected feature
    whose score has magnitude exactly [0.01] (the float) passes the selector's [>=]
    but not the colour table's [>]; unless another selected score prints
    with the same two decimals, its label has no colour and the chart is
    not drawn (the look-up raises [KeyError]). *)
Theorem bar_chart_fails_at_threshold (fmt2 pos_color neg_color : Q -> string)
    (df : frame) (word_mapping : list (string * string)) (top_n : Z)
    (r : string * Q) :
  let top := (compute_shap_values df word_mapping top_n).1.2 in
  let count := (compute_shap_values df word_mapping top_n).2 in
  NoDup (map fst df) ->
  r ∈ top ->
  (Qabs r.2 == threshold)%Q ->
  (forall r', r' ∈ top -> fmt2 r'.2 = fmt2 r.2 -> (Qabs r'.2 == threshold)%Q) ->
  plot_shap_bar_chart fmt2 top count
    (color_options fmt2 pos_color neg_color df top) = None.
Proof.
  intros top count Hnd Hr Hv Hother. unfold plot_shap_bar_chart.
  destruct (mapM _ top) as [cs|] eqn:E; [|reflexivity]. exfalso.
  assert (Hs : is_Some (mapM (fun r0 : string * Q =>
                 color_options fmt2 pos_color neg_color df top
                   !! label_text fmt2 (make_label r0.2)) top)) by eauto.
  apply mapM_is_Some in Hs. rewrite Forall_forall in Hs.
  specialize (Hs r Hr). cbn in Hs. unfold color_options in Hs.
  apply color_fold_lookup in Hs as (l & Hl & Ht).
  apply elem_of_color_labels in Hl as (r' & v & Hr' & Hat & Hcase).
  assert (Hdf : r' ∈ df).
  { apply ranked_qualifying, elem_of_qualifying in Hr'. tauto. }
  rewrite (shap_at_NoDup df r' Hnd Hdf) in Hat. injection Hat as <-.
  apply label_text_inj in Ht.
  assert (Hfmt : fmt2 r'.2 = fmt2 r.2).
  { destruct Hcase as [[-> _]|[-> _]]; exact Ht. }
  specialize (Hother r' Hr' Hfmt).
  destruct Hcase as [[_ Hc]|[_ Hc]].
  - rewrite Qabs_pos in Hother.
    + rewrite Hother in Hc. exact (Qlt_irrefl _ Hc).
    + apply Qlt_le_weak. eapply Qlt_trans; [|exact Hc]. reflexivity.
  - rewrite Qabs_neg in Hother.
    + apply Qopp_lt_compat in Hc. rewrite Qopp_involutive, Hother in Hc.
      exact (Qlt_irrefl _ Hc).
    + apply Qlt_le_weak. eapply Qlt_trans; [exact Hc|]. reflexivity.
Qed.

Lemma bar_chart_fails_at_threshold_witness :
  let df := [("amaz", threshold)] in
  let wm := [("amazing", "amaz")] in
  NoDup (map fst df)
  /\ ("amaz", threshold) ∈ (compute_shap_values df wm 5).1.2
  /\ (Qabs threshold == threshold)%Q
  /\ plot_shap_bar_chart (fun _ => "0.01") (compute_shap_values df wm 5).1.2
       (compute_shap_values df wm 5).2
       (color_options (fun _ => "0.01") (fun _ => "red") (fun _ => "blue") df
          (compute_shap_values df wm 5).1.2) = None.
Proof.
  intros df wm.
  assert (H1 : NoDup (map fst df))
    by (apply (bool_decide_unpack _); vm_compute; reflexivity).
  assert (H2 : ("amaz", threshold) ∈ (compute_shap_values df wm 5).1.2)
    by (vm_compute; left).
  assert (H3 : (Qabs threshold == threshold)%Q) by reflexivity.
  split; [exact H1|]. split; [exact H2|]. split; [exact H3|].
  apply (bar_chart_fails_at_threshold (fun _ => "0.01") (fun _ => "red")
           (fun _ => "blue") df wm 5 _ H1 H2 H3).
  intros r' Hr' _. vm_compute in Hr'. apply list_elem_of_singleton in Hr'.
  subst r'. reflexivity.
Defined.

(** ** The callback *)

(** X25. On a click with a non-empty review and a whole number in the
    number box, when no token of the cleaned review names a column of the
    slang table, the explainer's feature names are distinct and none of
    its scores has magnitude exactly [0.01] (the float), the callback
    answers with a chart and a tagged text: the chart has one colour per
    bar and the number of bars as its count, every bar is the "after" of a
    record of the review's log, and the tagged text is the review with
    underscores put in. *)
Theorem analysis_shown (word_tokenize : string -> list string)
    (slang_dict : gmap string (gmap string string)) (stopwords : list string)
    (stem : string -> string) (explain : string -> frame)
    (fmt2 pos_color neg_color : Q -> string)
    (n_clicks top_n : Z) (input_text : string) :
  0 < n_clicks ->
  input_text <> "" ->
  (forall w, w ∈ word_tokenize (clean_text input_text) ->
             slang_dict !! w = None) ->
  (forall t, NoDup (map fst (explain t))) ->
  (forall t r, r ∈ explain t -> ~ (Qabs r.2 == threshold)%Q) ->
  exists chart tagged cleaned log,
    predict_sentiment word_tokenize slang_dict stopwords stem explain fmt2
      pos_color neg_color n_clicks (Some top_n) input_text
    = Analysis chart tagged
    /\ preprocess_with_tracking word_tokenize slang_dict stopwords stem
         input_text = Some (cleaned, log)
    /\ List.length (bc_colors chart) = List.length (bc_y chart)
    /\ bc_count chart = Z.of_nat (List.length (bc_y chart))
    /\ (forall name, name ∈ bc_y chart -> exists before, (before, name) ∈ log)
    /\ without_underscores (sd_text tagged) = without_underscores input_text.
Proof.
  intros Hn Ht Hslang Hnd Hne. unfold predict_sentiment.
  replace (0 <? n_clicks) with true by (symmetry; now apply Z.ltb_lt).
  replace (input_text =? "")%string with false
    by (symmetry; now apply String.eqb_neq).
  cbn [andb negb].
  destruct (preprocess_with_tracking word_tokenize slang_dict stopwords stem
              input_text) as [[pt wm]|] eqn:Ep.
  2:{ exfalso. unfold preprocess_with_tracking in Ep.
      apply track_None in Ep as (w & Hw & [col Hcol]).
      rewrite (Hslang w Hw) in Hcol. discriminate. }
  pose proof (bar_chart_colors_helper fmt2 pos_color neg_color (explain pt) wm
                top_n (Hnd pt)) as Hch.
  destruct (compute_shap_values (explain pt) wm top_n) as [[d top] cnt] eqn:E.
  assert (Ed : d = explain pt)
    by (apply (f_equal (fun x => x.1.1)) in E; cbn in E; congruence).
  cbn [fst snd] in Hch. subst d.
  assert (Hq : forall r, r ∈ top -> r ∈ qualifying (explain pt) wm).
  { intros r Hr. apply (ranked_qualifying _ _ top_n). now rewrite E. }
  destruct Hch as (chart & Hc & Hy & Hl & Hcnt).
  - intros r Hr. apply Hq, elem_of_qualifying in Hr as (Hdf & _ & Hle).
    apply Qle_lt_or_eq in Hle as [Hlt|Heq]; [exact Hlt|].
    exfalso. apply (Hne pt r Hdf). now symmetry.
  - rewrite Hc. exists chart, (generate_spacy_visualization input_text
                                 (word_tokenize input_text) (explain pt) top wm),
                       pt, wm.
    split; [reflexivity|]. split; [reflexivity|]. rewrite Hy, length_map.
    split; [exact Hl|]. split; [exact Hcnt|]. split.
    + intros name Hname.
      apply list_elem_of_In, in_map_iff in Hname as (r & <- & Hr).
      apply list_elem_of_In, Hq, elem_of_qualifying in Hr as (_ & Hlog & _).
      apply list_elem_of_In, in_map_iff in Hlog as ([b a] & Ha & Hin).
      cbn in Ha. subst a. exists b. now apply list_elem_of_In.
    + cbn [generate_spacy_visualization sd_text]. apply add_underscores_content.
Qed.

Lemma analysis_shown_witness :
  let explain := fun _ : string => [("terribl", - (1 # 2))%Q] in
  0 < 1
  /\ "this was terrible" <> ""
  /\ (forall w, w ∈ split_blanks "" (clean_text "this was terrible") ->
                sample_slang !! w = None)
  /\ (forall t, NoDup (map fst (explain t)))
  /\ (forall t r, r ∈ explain t -> ~ (Qabs r.2 == threshold)%Q)
  /\ exists chart tagged,
       predict_sentiment (split_blanks "") sample_slang ["this"; "was"]
         sample_stem explain (fun _ => "-0.50") (fun _ => "red")
         (fun _ => "blue") 1 (Some 10) "this was terrible"
       = Analysis chart tagged.
Proof.
  intros explain.
  assert (H1 : 0 < 1) by lia.
  assert (H2 : "this was terrible" <> "") by discriminate.
  assert (H3 : forall w, w ∈ split_blanks "" (clean_text "this was terrible") ->
                         sample_slang !! w = None).
  { intros w Hw. vm_compute in Hw.
    apply elem_of_cons in Hw as [->|Hw]; [reflexivity|].
    apply elem_of_cons in Hw as [->|Hw]; [reflexivity|].
    apply list_elem_of_singleton in Hw. subst w. reflexivity. }
  assert (H4 : forall t, NoDup (map fst (explain t)))
    by (intros t; apply (bool_decide_unpack _); vm_compute; reflexivity).
  assert (H5 : forall t r, r ∈ explain t -> ~ (Qabs r.2 == threshold)%Q).
  { intros t r Hr. apply list_elem_of_singleton in Hr. subst r.
    vm_compute. discriminate. }
  repeat (split; [assumption|]).
  destruct (analysis_shown (split_blanks "") sample_slang ["this"; "was"]
              sample_stem explain (fun _ => "-0.50") (fun _ => "red")
              (fun _ => "blue") 1 10 "this was terrible" H1 H2 H3 H4 H5)
    as (chart & tagged & _ & _ & Hp & _).
  now exists chart, tagged.
Defined.

(** X26. The callback ends in an exception in these cases of a click
    with a non-empty review: [AttributeError] when a token of the cleaned
    review names a column of the slang table, whatever the number box
    holds; [TypeError] when preprocessing returns and the number box is
    empty. *)
Theorem callback_raises (word_tokenize : string -> list string)
    (slang_dict : gmap string (gmap string string)) (stopwords : list string)
    (stem : string -> string) (explain : string -> frame)
    (fmt2 pos_color neg_color : Q -> string)
    (n_clicks : Z) (top_n : option Z) (input_text : string) :
  0 < n_clicks ->
  input_text <> "" ->
  ((exists w, w ∈ word_tokenize (clean_text input_text)
              /\ is_Some (slang_dict !! w)) ->
   predict_sentiment word_tokenize slang_dict stopwords stem explain fmt2
     pos_color neg_color n_clicks top_n input_text = Raises AttributeError)
  /\ ((forall w, w ∈ word_tokenize (clean_text input_text) ->
                 slang_dict !! w = None) ->
      predict_sentiment word_tokenize slang_dict stopwords stem explain fmt2
        pos_color neg_color n_clicks None input_text = Raises TypeError).
Proof.
  intros Hn Ht. unfold predict_sentiment.
  replace (0 <? n_clicks) with true by (symmetry; now apply Z.ltb_lt).
  replace (input_text =? "")%string with false
    by (symmetry; now apply String.eqb_neq).
  cbn [andb negb]. unfold preprocess_with_tracking. split.
  - intros Hex.
    apply (proj2 (track_None slang_dict stopwords stem _)) in Hex.
    now rewrite Hex.
  - intros Hall.
    destruct (track slang_dict stopwords stem
                (word_tokenize (clean_text input_text))) as [[pt wm]|] eqn:E;
      [reflexivity|].
    apply track_None in E as (w & Hw & [col Hcol]).
    rewrite (Hall w Hw) in Hcol. discriminate.
Qed.

Lemma callback_raises_witness :
  0 < 1
  /\ "the meaning of life" <> ""
  /\ (exists w, w ∈ split_blanks "" (clean_text "the meaning of life")
                /\ is_Some (sample_slang !! w))
  /\ predict_sentiment (split_blanks "") sample_slang ["the"; "of"]
       sample_stem (fun _ => []) (fun _ => "0.00") (fun _ => "red")
       (fun _ => "blue") 1 (Some 10) "the meaning of life"
     = Raises AttributeError.
Proof.
  assert (H1 : 0 < 1) by lia.
  assert (H2 : "the meaning of life" <> "") by discriminate.
  assert (H3 : exists w, w ∈ split_blanks "" (clean_text "the meaning of life")
                         /\ is_Some (sample_slang !! w)).
  { exists "meaning". split; [vm_compute; right; left|]. vm_compute. eauto. }
  repeat (split; [assumption|]).
  exact (proj1 (callback_raises (split_blanks "") sample_slang ["the"; "of"]
                  sample_stem (fun _ => []) (fun _ => "0.00") (fun _ => "red")
                  (fun _ => "blue") 1 (Some 10) "the meaning of life" H1 H2) H3).
Defined.
